(** * seq_consistency_poc.c: the store/load litmus harness

    A shallow embedding of [src/seq_consistency_poc.c] as an interleaving
    machine.  Three threads ([main], [thread1Func], [thread2Func]) step one C
    statement at a time over the shared cells [X], [Y], [r1], [r2] and the
    four semaphores.  The machine is parametrised by a memory model:

    - [SC]: a store reaches memory at once (sequential consistency);
    - [TSO]: a store enters the issuing thread's FIFO store buffer and reaches
      memory at a later [Flush]; a load reads the thread's own newest buffered
      value first.  [sem_post] and [sem_wait] are fencing operations: they
      run only when the caller's buffer is drained.  The compiler barrier
      [asm volatile("" ::: "memory")] emits no instruction and drains nothing.

    Every step is labelled with an event, so that orderings of operations
    can be stated on traces. *)

From Stdlib Require Import ZArith List Bool Lia.
Import ListNotations.
Open Scope Z_scope.

(** ** Names of the program's objects *)

Inductive memmodel : Type := SC | TSO.

(** [W1] runs [thread1Func], [W2] runs [thread2Func]. *)
Inductive worker : Type := W1 | W2.

Inductive tid : Type := TMain | TWorker (w : worker).

(** The globals [int X, Y; int r1, r2;] (lines 66-67). *)
Inductive var : Type := vX | vY | vR1 | vR2.

(** The globals [beginSema1], [endSema1], [beginSema2], [endSema2]
    (lines 61-64), indexed by the worker they belong to. *)
Inductive semid : Type := SBegin (w : worker) | SEnd (w : worker).

Definition worker_eqb (a b : worker) : bool :=
  match a, b with W1, W1 | W2, W2 => true | _, _ => false end.

Definition tid_eqb (a b : tid) : bool :=
  match a, b with
  | TMain, TMain => true
  | TWorker x, TWorker y => worker_eqb x y
  | _, _ => false
  end.

Definition var_eqb (a b : var) : bool :=
  match a, b with
  | vX, vX | vY, vY | vR1, vR1 | vR2, vR2 => true
  | _, _ => false
  end.

Definition semid_eqb (a b : semid) : bool :=
  match a, b with
  | SBegin x, SBegin y | SEnd x, SEnd y => worker_eqb x y
  | _, _ => false
  end.

(** What differs between [thread1Func] and [thread2Func]:
    the cell stored to (lines 86 / 112), the cell loaded from and the result
    cell (lines 88 / 114), and the CPU asked for (lines 77 / 103). *)
Definition own (w : worker) : var := match w with W1 => vX | W2 => vY end.
Definition other (w : worker) : var := match w with W1 => vY | W2 => vX end.
Definition res (w : worker) : var := match w with W1 => vR1 | W2 => vR2 end.
Definition cpu (w : worker) : Z := match w with W1 => 10 | W2 => 1 end.

(** ** Machine integers *)

Definition INT_MAX : Z := 2147483647.

(** Conversion of a wider value to [int] (two's complement truncation). *)
Definition to_int (v : Z) : Z := (v + 2147483648) mod 4294967296 - 2147483648.

(** Conversion to [unsigned]. *)
Definition to_unsigned (v : Z) : Z := v mod 4294967296.

(** ** Shared memory, store buffers, semaphores *)

Record memory : Type := { X : Z; Y : Z; r1 : Z; r2 : Z }.

Definition mem_get (m : memory) (x : var) : Z :=
  match x with vX => X m | vY => Y m | vR1 => r1 m | vR2 => r2 m end.

Definition mem_set (m : memory) (x : var) (v : Z) : memory :=
  match x with
  | vX => {| X := v; Y := Y m; r1 := r1 m; r2 := r2 m |}
  | vY => {| X := X m; Y := v; r1 := r1 m; r2 := r2 m |}
  | vR1 => {| X := X m; Y := Y m; r1 := v; r2 := r2 m |}
  | vR2 => {| X := X m; Y := Y m; r1 := r1 m; r2 := v |}
  end.

(** A store buffer, oldest entry first. *)
Definition buffer : Type := list (var * Z).

(** The newest buffered value of [x], if any. *)
Fixpoint buf_lookup (b : buffer) (x : var) : option Z :=
  match b with
  | [] => None
  | (y, v) :: b' =>
      match buf_lookup b' x with
      | Some u => Some u
      | None => if var_eqb x y then Some v else None
      end
  end.

(** A [sem_t]: its counter, and whether [sem_init] has succeeded on it.
    Posting to or waiting on a semaphore that was never initialised is
    undefined. *)
Record sem_t : Type := { sem_value : Z; sem_ready : bool }.

Record semaphores : Type :=
  { beginSema1 : sem_t; endSema1 : sem_t; beginSema2 : sem_t; endSema2 : sem_t }.

Definition sem_get (ss : semaphores) (k : semid) : sem_t :=
  match k with
  | SBegin W1 => beginSema1 ss
  | SEnd W1 => endSema1 ss
  | SBegin W2 => beginSema2 ss
  | SEnd W2 => endSema2 ss
  end.

Definition sem_set (ss : semaphores) (k : semid) (v : sem_t) : semaphores :=
  match k with
  | SBegin W1 =>
      {| beginSema1 := v; endSema1 := endSema1 ss;
         beginSema2 := beginSema2 ss; endSema2 := endSema2 ss |}
  | SEnd W1 =>
      {| beginSema1 := beginSema1 ss; endSema1 := v;
         beginSema2 := beginSema2 ss; endSema2 := endSema2 ss |}
  | SBegin W2 =>
      {| beginSema1 := beginSema1 ss; endSema1 := endSema1 ss;
         beginSema2 := v; endSema2 := endSema2 ss |}
  | SEnd W2 =>
      {| beginSema1 := beginSema1 ss; endSema1 := endSema1 ss;
         beginSema2 := beginSema2 ss; endSema2 := v |}
  end.

(** ** Program points *)

(** Program points of [main] (lines 122-165); each is named after the
    statement about to run. *)
Inductive mloc : Type :=
| M_sysconf                    (* 125 *)
| M_printf_nproc               (* 126 *)
| M_sem_init (k : semid)       (* 129-132 *)
| M_pthread_create (w : worker)(* 136-137 *)
| M_locals                     (* 140-141 *)
| M_reset_X                    (* 146 *)
| M_reset_Y                    (* 147 *)
| M_post_begin (w : worker)    (* 149-150 *)
| M_wait_end (w : worker)      (* 152-153 *)
| M_check                      (* 156-161 *)
| M_incr.                      (* 143: iterations++ *)

(** Program points of [thread1Func] / [thread2Func]. *)
Inductive wloc : Type :=
| W_not_started                (* before pthread_create *)
| W_srand                      (* 71-72 / 98-99 *)
| W_cpu_zero                   (* 76 / 102 *)
| W_cpu_set                    (* 77 / 103 *)
| W_setaffinity                (* 78 / 104 *)
| W_wait                       (* 82 / 108 *)
| W_delay                      (* 83 / 109 *)
| W_store                      (* 86 / 112 *)
| W_fence                      (* 87 / 113 *)
| W_load                       (* 88 / 114 *)
| W_post.                      (* 90 / 116 *)

(** ** Output and events *)

(** The two [printf] calls, by their arguments. *)
Inductive line : Type :=
| ProcessorsLine (n : Z)                       (* line 126 *)
| ReorderLine (detected iterations : Z).       (* line 160 *)

Inductive event : Type :=
| EvSysconf (v : Z)
| EvPrintf (l : line)
| EvSemInit (k : semid) (rc : Z)
| EvCreate (w : worker) (rc : Z)
| EvLocals
| EvSrand (w : worker) (seed : Z)
| EvCpuZero (w : worker)
| EvCpuSet (w : worker) (c : Z)
| EvSetAffinity (w : worker) (rc : Z)
| EvSemWait (t : tid) (k : semid)
| EvSemPost (t : tid) (k : semid)
| EvRand (w : worker) (v : Z)
| EvStore (t : tid) (x : var) (v : Z)          (* x = v *)
| EvFence (w : worker)
| EvCopy (t : tid) (dst src : var) (v : Z)     (* dst = src, v the value read *)
| EvCheck (a b : Z)                            (* r1, r2 as read by line 156 *)
| EvIncr
| EvFlush (t : tid) (x : var) (v : Z).         (* a buffered store reaches memory *)

(** ** Machine state *)

(** A worker thread: program point, store buffer, the local [cpus] set, and
    the CPU set the thread is bound to ([None]: never bound). *)
Record wstate : Type :=
  { wpc : wloc; wbuf : buffer; cpus : list Z; affinity : option (list Z) }.

(** The main thread: program point, store buffer, locals and standard
    output. *)
Record mstate : Type :=
  { mpc : mloc; mbuf : buffer;
    numberOfProcessors : Z; detected : Z; iterations : Z;
    stdout : list line }.

Record state : Type :=
  { coord : mstate; mem : memory; sems : semaphores;
    thread1 : wstate; thread2 : wstate }.

Definition thread (s : state) (w : worker) : wstate :=
  match w with W1 => thread1 s | W2 => thread2 s end.

Definition set_coord (s : state) (c : mstate) : state :=
  {| coord := c; mem := mem s; sems := sems s;
     thread1 := thread1 s; thread2 := thread2 s |}.

Definition set_mem (s : state) (m : memory) : state :=
  {| coord := coord s; mem := m; sems := sems s;
     thread1 := thread1 s; thread2 := thread2 s |}.

Definition set_sems (s : state) (ss : semaphores) : state :=
  {| coord := coord s; mem := mem s; sems := ss;
     thread1 := thread1 s; thread2 := thread2 s |}.

Definition set_thread (s : state) (w : worker) (t : wstate) : state :=
  match w with
  | W1 => {| coord := coord s; mem := mem s; sems := sems s;
             thread1 := t; thread2 := thread2 s |}
  | W2 => {| coord := coord s; mem := mem s; sems := sems s;
             thread1 := thread1 s; thread2 := t |}
  end.

Definition set_mpc (c : mstate) (p : mloc) : mstate :=
  {| mpc := p; mbuf := mbuf c; numberOfProcessors := numberOfProcessors c;
     detected := detected c; iterations := iterations c; stdout := stdout c |}.

Definition set_mbuf (c : mstate) (b : buffer) : mstate :=
  {| mpc := mpc c; mbuf := b; numberOfProcessors := numberOfProcessors c;
     detected := detected c; iterations := iterations c; stdout := stdout c |}.

Definition set_wpc (t : wstate) (p : wloc) : wstate :=
  {| wpc := p; wbuf := wbuf t; cpus := cpus t; affinity := affinity t |}.

Definition set_wbuf (t : wstate) (b : buffer) : wstate :=
  {| wpc := wpc t; wbuf := b; cpus := cpus t; affinity := affinity t |}.

Definition buf_of (s : state) (t : tid) : buffer :=
  match t with
  | TMain => mbuf (coord s)
  | TWorker w => wbuf (thread s w)
  end.

Definition set_buf (s : state) (t : tid) (b : buffer) : state :=
  match t with
  | TMain => set_coord s (set_mbuf (coord s) b)
  | TWorker w => set_thread s w (set_wbuf (thread s w) b)
  end.

(** A load by thread [t]: its own newest buffered store, else memory. *)
Definition read (s : state) (t : tid) (x : var) : Z :=
  match buf_lookup (buf_of s t) x with
  | Some v => v
  | None => mem_get (mem s) x
  end.

(** A store by thread [t]. *)
Definition write (mm : memmodel) (s : state) (t : tid) (x : var) (v : Z) : state :=
  match mm with
  | SC => set_mem s (mem_set (mem s) x v)
  | TSO => set_buf s t (buf_of s t ++ [(x, v)])
  end.

Definition drained (s : state) (t : tid) : bool :=
  match buf_of s t with [] => true | _ :: _ => false end.

(** [sem_post]: fencing; increments the counter. *)
Definition sem_post (s : state) (t : tid) (k : semid) : option state :=
  let sm := sem_get (sems s) k in
  if drained s t && sem_ready sm then
    Some (set_sems s (sem_set (sems s) k
            {| sem_value := sem_value sm + 1; sem_ready := true |}))
  else None.

(** [sem_wait]: fencing; enabled only when the counter is positive, and
    decrements it. *)
Definition sem_wait (s : state) (t : tid) (k : semid) : option state :=
  let sm := sem_get (sems s) k in
  if drained s t && sem_ready sm && (0 <? sem_value sm) then
    Some (set_sems s (sem_set (sems s) k
            {| sem_value := sem_value sm - 1; sem_ready := true |}))
  else None.

(** [sem_init(&k, 0, 0)] answering [rc]: on success the counter is 0 and the
    semaphore usable; on failure the object is left as it was. *)
Definition sem_init (s : state) (k : semid) (rc : Z) : state :=
  if rc =? 0 then
    set_sems s (sem_set (sems s) k {| sem_value := 0; sem_ready := true |})
  else s.

(** [pthread_create(&thread, NULL, threadFunc, NULL)] answering [rc]: on
    success the new thread stands at the first statement of its function; on
    failure no thread exists. *)
Definition pthread_create (s : state) (w : worker) (rc : Z) : state :=
  if rc =? 0 then set_thread s w (set_wpc (thread s w) W_srand) else s.

(** ** The main thread *)

Definition goto (s : state) (p : mloc) : state :=
  set_coord s (set_mpc (coord s) p).

(** Order of the four [sem_init] calls, lines 129-132. *)
Definition after_sem_init (k : semid) : mloc :=
  match k with
  | SBegin W1 => M_sem_init (SBegin W2)
  | SBegin W2 => M_sem_init (SEnd W1)
  | SEnd W1 => M_sem_init (SEnd W2)
  | SEnd W2 => M_pthread_create W1
  end.

Definition after_create (w : worker) : mloc :=
  match w with W1 => M_pthread_create W2 | W2 => M_locals end.

Definition after_post_begin (w : worker) : mloc :=
  match w with W1 => M_post_begin W2 | W2 => M_wait_end W1 end.

Definition after_wait_end (w : worker) : mloc :=
  match w with W1 => M_wait_end W2 | W2 => M_check end.

(** Lines 156-161, given the values [a], [b] read from [r1], [r2]:
    [if (r1 == 0 && r2 == 0) { detected++; printf(..., detected, iterations); }].
    [None]: [detected++] would overflow [int], which is undefined. *)
Definition check_reorder (a b : Z) (c : mstate) : option mstate :=
  if (a =? 0) && (b =? 0) then
    if detected c <? INT_MAX then
      Some {| mpc := M_incr; mbuf := mbuf c;
              numberOfProcessors := numberOfProcessors c;
              detected := detected c + 1; iterations := iterations c;
              stdout := stdout c ++ [ReorderLine (detected c + 1) (iterations c)] |}
    else None
  else Some (set_mpc c M_incr).

(** One statement of [main].  [env] is what the environment answers when the
    statement is a library call ([sysconf], [sem_init], [pthread_create]); it
    is ignored otherwise. *)
Definition main (mm : memmodel) (env : Z) (s : state) : option (state * event) :=
  let c := coord s in
  match mpc c with
  | M_sysconf =>
      Some (set_coord s
              {| mpc := M_printf_nproc; mbuf := mbuf c;
                 numberOfProcessors := to_int env;
                 detected := detected c; iterations := iterations c;
                 stdout := stdout c |},
            EvSysconf env)
  | M_printf_nproc =>
      let l := ProcessorsLine (numberOfProcessors c) in
      Some (set_coord s
              {| mpc := M_sem_init (SBegin W1); mbuf := mbuf c;
                 numberOfProcessors := numberOfProcessors c;
                 detected := detected c; iterations := iterations c;
                 stdout := stdout c ++ [l] |},
            EvPrintf l)
  | M_sem_init k =>
      Some (goto (sem_init s k env) (after_sem_init k), EvSemInit k env)
  | M_pthread_create w =>
      Some (goto (pthread_create s w env) (after_create w), EvCreate w env)
  | M_locals =>
      Some (set_coord s
              {| mpc := M_reset_X; mbuf := mbuf c;
                 numberOfProcessors := numberOfProcessors c;
                 detected := 0; iterations := 1;
                 stdout := stdout c |},
            EvLocals)
  | M_reset_X =>
      Some (goto (write mm s TMain vX 0) M_reset_Y, EvStore TMain vX 0)
  | M_reset_Y =>
      Some (goto (write mm s TMain vY 0) (M_post_begin W1), EvStore TMain vY 0)
  | M_post_begin w =>
      match sem_post s TMain (SBegin w) with
      | Some s' => Some (goto s' (after_post_begin w), EvSemPost TMain (SBegin w))
      | None => None
      end
  | M_wait_end w =>
      match sem_wait s TMain (SEnd w) with
      | Some s' => Some (goto s' (after_wait_end w), EvSemWait TMain (SEnd w))
      | None => None
      end
  | M_check =>
      let a := read s TMain vR1 in
      let b := read s TMain vR2 in
      match check_reorder a b c with
      | Some c' => Some (set_coord s c', EvCheck a b)
      | None => None
      end
  | M_incr =>
      if iterations c <? INT_MAX then
        Some (set_coord s
                {| mpc := M_reset_X; mbuf := mbuf c;
                   numberOfProcessors := numberOfProcessors c;
                   detected := detected c; iterations := iterations c + 1;
                   stdout := stdout c |},
              EvIncr)
      else None
  end.

(** ** The worker threads *)

Definition wgoto (s : state) (w : worker) (p : wloc) : state :=
  set_thread s w (set_wpc (thread s w) p).

(** One statement of [thread1Func] ([w = W1]) or [thread2Func] ([w = W2]).
    [env] answers [time], [pthread_setaffinity_np] and [rand]. *)
Definition threadFunc (mm : memmodel) (w : worker) (env : Z) (s : state)
  : option (state * event) :=
  let t := thread s w in
  let me := TWorker w in
  match wpc t with
  | W_not_started => None
  | W_srand =>
      Some (wgoto s w W_cpu_zero, EvSrand w (to_unsigned env))
  | W_cpu_zero =>
      Some (set_thread s w
              {| wpc := W_cpu_set; wbuf := wbuf t; cpus := [];
                 affinity := affinity t |},
            EvCpuZero w)
  | W_cpu_set =>
      Some (set_thread s w
              {| wpc := W_setaffinity; wbuf := wbuf t; cpus := cpu w :: cpus t;
                 affinity := affinity t |},
            EvCpuSet w (cpu w))
  | W_setaffinity =>
      Some (set_thread s w
              {| wpc := W_wait; wbuf := wbuf t; cpus := cpus t;
                 affinity := if env =? 0 then Some (cpus t) else affinity t |},
            EvSetAffinity w env)
  | W_wait =>
      match sem_wait s me (SBegin w) with
      | Some s' => Some (wgoto s' w W_delay, EvSemWait me (SBegin w))
      | None => None
      end
  | W_delay =>
      (* while (rand() % 8 != 0) {} *)
      Some (wgoto s w (if negb (Z.rem env 8 =? 0) then W_delay else W_store),
            EvRand w env)
  | W_store =>
      Some (wgoto (write mm s me (own w) 1) w W_fence, EvStore me (own w) 1)
  | W_fence =>
      Some (wgoto s w W_load, EvFence w)
  | W_load =>
      let v := read s me (other w) in
      Some (wgoto (write mm s me (res w) v) w W_post,
            EvCopy me (res w) (other w) v)
  | W_post =>
      match sem_post s me (SEnd w) with
      | Some s' => Some (wgoto s' w W_wait, EvSemPost me (SEnd w))
      | None => None
      end
  end.

Definition thread1Func (mm : memmodel) := threadFunc mm W1.
Definition thread2Func (mm : memmodel) := threadFunc mm W2.

(** ** The memory subsystem *)

(** Under [TSO] the oldest buffered store of thread [t] reaches memory. *)
Definition flush (mm : memmodel) (s : state) (t : tid) : option (state * event) :=
  match mm with
  | SC => None
  | TSO =>
      match buf_of s t with
      | [] => None
      | (x, v) :: b =>
          Some (set_mem (set_buf s t b) (mem_set (mem s) x v), EvFlush t x v)
      end
  end.

(** ** Interleaving *)

Inductive action : Type :=
| Run (t : tid) (env : Z)
| Flush (t : tid).

Definition step (mm : memmodel) (a : action) (s : state) : option (state * event) :=
  match a with
  | Run TMain env => main mm env s
  | Run (TWorker W1) env => thread1Func mm env s
  | Run (TWorker W2) env => thread2Func mm env s
  | Flush t => flush mm s t
  end.

(** Process start: globals are zero, no thread but [main] exists. *)
Definition sem0 : sem_t := {| sem_value := 0; sem_ready := false |}.

Definition wstate0 : wstate :=
  {| wpc := W_not_started; wbuf := []; cpus := []; affinity := None |}.

Definition init : state :=
  {| coord := {| mpc := M_sysconf; mbuf := []; numberOfProcessors := 0;
                 detected := 0; iterations := 0; stdout := [] |};
     mem := {| X := 0; Y := 0; r1 := 0; r2 := 0 |};
     sems := {| beginSema1 := sem0; endSema1 := sem0;
                beginSema2 := sem0; endSema2 := sem0 |};
     thread1 := wstate0; thread2 := wstate0 |}.

(** Executions, with the trace in chronological order. *)
Inductive exec (mm : memmodel) (s0 : state) : list event -> state -> Prop :=
| exec_nil : exec mm s0 [] s0
| exec_snoc tr s a s' e :
    exec mm s0 tr s -> step mm a s = Some (s', e) -> exec mm s0 (tr ++ [e]) s'.

(** Running a schedule. *)
Fixpoint run (mm : memmodel) (sched : list action) (s : state)
  : option (state * list event) :=
  match sched with
  | [] => Some (s, [])
  | a :: rest =>
      match step mm a s with
      | Some (s1, e) =>
          match run mm rest s1 with
          | Some (s2, tr) => Some (s2, e :: tr)
          | None => None
          end
      | None => None
      end
  end.

(** Schedules used below. *)
Definition startup_main : list action :=
  [Run TMain 16; Run TMain 0; Run TMain 0; Run TMain 0; Run TMain 0;
   Run TMain 0; Run TMain 0; Run TMain 0; Run TMain 0].

Definition startup_worker (w : worker) (rc : Z) : list action :=
  [Run (TWorker w) 1700000000; Run (TWorker w) 0; Run (TWorker w) 0;
   Run (TWorker w) rc].

Definition open_trial : list action :=
  [Run TMain 0; Run TMain 0; Run TMain 0; Run TMain 0].

Definition close_trial : list action :=
  [Run TMain 0; Run TMain 0; Run TMain 0; Run TMain 0].

(** A TSO schedule: both stores sit in the buffers while both loads run. *)
Definition sched_tso_00 : list action :=
  startup_main ++ startup_worker W1 0 ++ startup_worker W2 0 ++
  [Run TMain 0; Run TMain 0; Flush TMain; Flush TMain; Run TMain 0; Run TMain 0] ++
  [Run (TWorker W1) 0; Run (TWorker W1) 8; Run (TWorker W2) 0; Run (TWorker W2) 16;
   Run (TWorker W1) 0; Run (TWorker W2) 0;
   Run (TWorker W1) 0; Run (TWorker W2) 0;
   Run (TWorker W1) 0; Run (TWorker W2) 0;
   Flush (TWorker W1); Flush (TWorker W1); Flush (TWorker W2); Flush (TWorker W2);
   Run (TWorker W1) 0; Run (TWorker W2) 0] ++
  close_trial.

(** An SC schedule: worker 1 runs its transaction before worker 2. *)
Definition sched_sc_01 : list action :=
  startup_main ++ startup_worker W1 0 ++ startup_worker W2 0 ++ open_trial ++
  [Run (TWorker W1) 0; Run (TWorker W1) 3; Run (TWorker W1) 8;
   Run (TWorker W1) 0; Run (TWorker W1) 0; Run (TWorker W1) 0;
   Run (TWorker W1) 0;
   Run (TWorker W2) 0; Run (TWorker W2) 8;
   Run (TWorker W2) 0; Run (TWorker W2) 0; Run (TWorker W2) 0;
   Run (TWorker W2) 0] ++
  close_trial.

(** ** Counting events on a trace *)

Definition count (p : event -> bool) (tr : list event) : Z :=
  Z.of_nat (length (filter p tr)).

Definition is_store_by (t : tid) (x : var) (e : event) : bool :=
  match e with
  | EvStore t' x' _ => tid_eqb t t' && var_eqb x x'
  | _ => false
  end.

Definition is_copy_by (w : worker) (e : event) : bool :=
  match e with
  | EvCopy (TWorker w') d _ _ => worker_eqb w w' && var_eqb (res w) d
  | _ => false
  end.

Definition is_post (t : tid) (k : semid) (e : event) : bool :=
  match e with
  | EvSemPost t' k' => tid_eqb t t' && semid_eqb k k'
  | _ => false
  end.

Definition is_wait (t : tid) (k : semid) (e : event) : bool :=
  match e with
  | EvSemWait t' k' => tid_eqb t t' && semid_eqb k k'
  | _ => false
  end.

Definition is_fence (w : worker) (e : event) : bool :=
  match e with EvFence w' => worker_eqb w w' | _ => false end.

Definition is_check (e : event) : bool :=
  match e with EvCheck _ _ => true | _ => false end.

Definition is_incr (e : event) : bool :=
  match e with EvIncr => true | _ => false end.

(** The value of worker [w]'s latest [r = other] copy on the trace. *)
Definition copied (w : worker) (acc : option Z) (e : event) : option Z :=
  if is_copy_by w e then
    match e with EvCopy _ _ _ v => Some v | _ => acc end
  else acc.

Definition last_copy (w : worker) (tr : list event) : option Z :=
  fold_left (copied w) tr None.

(** Position of a program point in the loop body it belongs to (0 outside
    the loop), and whether the statement at position [i] of the current
    iteration has already run. *)
Definition midx (p : mloc) : Z :=
  match p with
  | M_reset_Y => 1
  | M_post_begin W1 => 2
  | M_post_begin W2 => 3
  | M_wait_end W1 => 4
  | M_wait_end W2 => 5
  | M_check => 6
  | M_incr => 7
  | _ => 0
  end.

Definition in_loop (p : mloc) : bool :=
  match p with
  | M_reset_X | M_reset_Y | M_post_begin _ | M_wait_end _ | M_check | M_incr => true
  | _ => false
  end.

Definition widx (p : wloc) : Z :=
  match p with
  | W_delay => 1
  | W_store => 2
  | W_fence => 3
  | W_load => 4
  | W_post => 5
  | _ => 0
  end.

Definition past (idx i : Z) : Z := if i <? idx then 1 else 0.

(** ** The synchronisation invariant *)

(** [main]: with [k] completed iterations, each loop statement has run [k]
    times, plus once if the current iteration is past it. *)
Definition msync (tr : list event) (s : state) : Prop :=
  let c := coord s in
  let i := midx (mpc c) in
  let k := count is_incr tr in
  count (is_store_by TMain vX) tr = k + past i 0 /\
  count (is_store_by TMain vY) tr = k + past i 1 /\
  count (is_post TMain (SBegin W1)) tr = k + past i 2 /\
  count (is_post TMain (SBegin W2)) tr = k + past i 3 /\
  count (is_wait TMain (SEnd W1)) tr = k + past i 4 /\
  count (is_wait TMain (SEnd W2)) tr = k + past i 5 /\
  count is_check tr = k + past i 6 /\
  if in_loop (mpc c)
  then iterations c = k + 1 /\ k + 1 <= INT_MAX /\
       0 <= detected c <= count is_check tr
  else k = 0.

(** A worker: likewise, with [j] the number of its completed iterations;
    and its two semaphores count the signals sent and not yet taken. *)
Definition wsync (tr : list event) (s : state) (w : worker) : Prop :=
  let i := widx (wpc (thread s w)) in
  let j := count (is_post (TWorker w) (SEnd w)) tr in
  count (is_wait (TWorker w) (SBegin w)) tr = j + past i 0 /\
  count (is_store_by (TWorker w) (own w)) tr = j + past i 2 /\
  count (is_fence w) tr = j + past i 3 /\
  count (is_copy_by w) tr = j + past i 4 /\
  sem_value (sem_get (sems s) (SBegin w)) =
    count (is_post TMain (SBegin w)) tr - count (is_wait (TWorker w) (SBegin w)) tr /\
  sem_value (sem_get (sems s) (SEnd w)) =
    j - count (is_wait TMain (SEnd w)) tr /\
  0 <= sem_value (sem_get (sems s) (SBegin w)) /\
  0 <= sem_value (sem_get (sems s) (SEnd w)).

Definition sync (tr : list event) (s : state) : Prop :=
  msync tr s /\ wsync tr s W1 /\ wsync tr s W2.

(** ** Values and store buffers *)

Definition bit (v : Z) : Prop := v = 0 \/ v = 1.

Definition mem_bits (m : memory) : Prop :=
  bit (X m) /\ bit (Y m) /\ bit (r1 m) /\ bit (r2 m).

(** What [main] may have buffered: a reset of [X] or [Y]. *)
Definition mentry (xv : var * Z) : Prop :=
  (fst xv = vX \/ fst xv = vY) /\ snd xv = 0.

(** What worker [w] may have buffered: its store of 1, or its result. *)
Definition wentry (w : worker) (xv : var * Z) : Prop :=
  (fst xv = own w /\ snd xv = 1) \/ (fst xv = res w /\ bit (snd xv)).

Definition wdata (mm : memmodel) (tr : list event) (s : state) (w : worker) : Prop :=
  Forall (wentry w) (wbuf (thread s w)) /\
  (widx (wpc (thread s w)) <= 2 \/ mm = SC -> wbuf (thread s w) = []) /\
  (forall v, last_copy w tr = Some v -> read s (TWorker w) (res w) = v).

(** Before [pthread_create] has run for [w], the thread does not exist. *)
Definition before_create (p : mloc) (w : worker) : bool :=
  match p, w with
  | M_sysconf, _ | M_printf_nproc, _ | M_sem_init _, _ => true
  | M_pthread_create W1, _ => true
  | M_pthread_create W2, W2 => true
  | _, _ => false
  end.

Definition data (mm : memmodel) (tr : list event) (s : state) : Prop :=
  (before_create (mpc (coord s)) W1 = true -> wpc (thread1 s) = W_not_started) /\
  (before_create (mpc (coord s)) W2 = true -> wpc (thread2 s) = W_not_started) /\
  mem_bits (mem s) /\
  Forall mentry (mbuf (coord s)) /\
  (midx (mpc (coord s)) = 1 \/ midx (mpc (coord s)) = 2 \/ mbuf (coord s) = []) /\
  (mm = SC -> mbuf (coord s) = []) /\
  wdata mm tr s W1 /\ wdata mm tr s W2.

(** ** Sequential consistency *)

(** Under [SC]: once a worker has stored in the current trial its cell holds
    1 until the next reset; once both workers have loaded in the current
    trial one of them has seen the other's store; nothing is ever detected. *)
Definition scdata (tr : list event) (s : state) : Prop :=
  (1 <= count (is_store_by (TWorker W1) vX) tr ->
   count (is_store_by (TWorker W1) vX) tr = count (is_store_by TMain vX) tr ->
   X (mem s) = 1) /\
  (1 <= count (is_store_by (TWorker W2) vY) tr ->
   count (is_store_by (TWorker W2) vY) tr = count (is_store_by TMain vY) tr ->
   Y (mem s) = 1) /\
  (1 <= count (is_copy_by W1) tr ->
   count (is_copy_by W1) tr = count (is_copy_by W2) tr ->
   r1 (mem s) = 1 \/ r2 (mem s) = 1) /\
  detected (coord s) = 0.

(** ** Each thread's own view of a trace *)

(** The operations of worker [w]'s loop body. *)
Definition worker_event (w : worker) (e : event) : bool :=
  match e with
  | EvSemWait (TWorker w') _ | EvSemPost (TWorker w') _
  | EvStore (TWorker w') _ _ | EvCopy (TWorker w') _ _ _
  | EvRand w' _ | EvFence w' => worker_eqb w w'
  | _ => false
  end.


(** Labelled control flow of the worker loop, lines 80-91 / 106-117. *)
Definition wtrans (w : worker) (p : wloc) (e : event) (p' : wloc) : Prop :=
  match p with
  | W_wait => e = EvSemWait (TWorker w) (SBegin w) /\ p' = W_delay
  | W_delay =>
      exists v, e = EvRand w v /\
        ((Z.rem v 8 <> 0 /\ p' = W_delay) \/ (Z.rem v 8 = 0 /\ p' = W_store))
  | W_store => e = EvStore (TWorker w) (own w) 1 /\ p' = W_fence
  | W_fence => e = EvFence w /\ p' = W_load
  | W_load => (exists y, e = EvCopy (TWorker w) (res w) (other w) y) /\ p' = W_post
  | W_post => e = EvSemPost (TWorker w) (SEnd w) /\ p' = W_wait
  | _ => False
  end.


(** ** Shape of the loop iterations *)









(** A check that saw [r1 == 0 && r2 == 0]. *)
Definition is_violation (e : event) : bool :=
  match e with
  | EvCheck a b => (a =? 0) && (b =? 0)
  | _ => false
  end.

(** The state and trace a schedule leads to from process start. *)
Definition final (mm : memmodel) (sched : list action) : state :=
  match run mm sched init with Some (s, _) => s | None => init end.

Definition trace (mm : memmodel) (sched : list action) : list event :=
  match run mm sched init with Some (_, tr) => tr | None => [] end.

(** [sched_tso_00] up to, and without, the check of line 156. *)
Definition sched_tso_00_check : list action :=
  firstn 41 sched_tso_00.

Definition st_check : state := Eval vm_compute in final TSO sched_tso_00_check.
Definition tr_check : list event := Eval vm_compute in trace TSO sched_tso_00_check.
Definition st_checked : state := Eval vm_compute in final TSO (firstn 42 sched_tso_00).

(** An SC schedule up to, and without, the check of line 156. *)
Definition sched_sc_01_check : list action := firstn 36 sched_sc_01.
Definition st_sc_check : state := Eval vm_compute in final SC sched_sc_01_check.
Definition tr_sc_check : list event := Eval vm_compute in trace SC sched_sc_01_check.

(** Worker 1 has taken its start signal and stands in the delay loop. *)
Definition sched_w1_delay : list action := firstn 24 sched_tso_00.
Definition st_w1_delay : state := Eval vm_compute in final TSO sched_w1_delay.
Definition tr_w1_delay : list event := Eval vm_compute in trace TSO sched_w1_delay.

(** The thread whose store to [x] event [e] issues or retires, if any. *)
Definition writer (x : var) (e : event) : option tid :=
  match e with
  | EvStore t x' _ | EvCopy t x' _ _ | EvFlush t x' _ =>
      if var_eqb x x' then Some t else None
  | _ => None
  end.

(** A statement that assigns to [x]. *)
Definition is_store_to (x : var) (e : event) : bool :=
  match e with
  | EvStore _ x' _ | EvCopy _ x' _ _ => var_eqb x x'
  | _ => false
  end.

(** The start-up statements of [main], lines 125-141, with the answers of
    [sysconf], the four [sem_init] and the two [pthread_create]. *)
Definition main_startup (n i1 i2 i3 i4 c1 c2 : Z) : list action :=
  [Run TMain n; Run TMain 0; Run TMain i1; Run TMain i2; Run TMain i3;
   Run TMain i4; Run TMain c1; Run TMain c2; Run TMain 0].

(** The start-up statements of a worker, lines 71-78 / 98-104, with the
    answers of [time] and [pthread_setaffinity_np]. *)
Definition worker_startup (w : worker) (t rc : Z) : list action :=
  [Run (TWorker w) t; Run (TWorker w) 0; Run (TWorker w) 0; Run (TWorker w) rc].

(** [sched_sc_01] on a machine where binding worker 1 to CPU 10 fails with
    [EINVAL] (22). *)
Definition sched_affinity_fails : list action :=
  startup_main ++ startup_worker W1 22 ++ startup_worker W2 0 ++ open_trial ++
  [Run (TWorker W1) 0; Run (TWorker W1) 3; Run (TWorker W1) 8;
   Run (TWorker W1) 0; Run (TWorker W1) 0; Run (TWorker W1) 0;
   Run (TWorker W1) 0;
   Run (TWorker W2) 0; Run (TWorker W2) 8;
   Run (TWorker W2) 0; Run (TWorker W2) 0; Run (TWorker W2) 0;
   Run (TWorker W2) 0] ++
  close_trial.

Definition st_affinity_fails : state :=
  Eval vm_compute in final SC sched_affinity_fails.
Definition tr_affinity_fails : list event :=
  Eval vm_compute in trace SC sched_affinity_fails.

(** A sample stream for the delay loop: 3, 13, then 16. *)
Definition sample_stream (i : nat) : Z :=
  match i with O => 3 | S O => 13 | _ => 16 end.

(** What a start-up statement of [main] does to [main]'s own state. *)
Definition startup_coord (env : Z) (c : mstate) : mstate :=
  match mpc c with
  | M_sysconf =>
      {| mpc := M_printf_nproc; mbuf := mbuf c;
         numberOfProcessors := to_int env;
         detected := detected c; iterations := iterations c;
         stdout := stdout c |}
  | M_printf_nproc =>
      {| mpc := M_sem_init (SBegin W1); mbuf := mbuf c;
         numberOfProcessors := numberOfProcessors c;
         detected := detected c; iterations := iterations c;
         stdout := stdout c ++ [ProcessorsLine (numberOfProcessors c)] |}
  | M_sem_init k => set_mpc c (after_sem_init k)
  | M_pthread_create w => set_mpc c (after_create w)
  | M_locals =>
      {| mpc := M_reset_X; mbuf := mbuf c;
         numberOfProcessors := numberOfProcessors c;
         detected := 0; iterations := 1; stdout := stdout c |}
  | _ => c
  end.

(** What a start-up statement of a worker does to the worker's own state. *)
Definition startup_thread (w : worker) (env : Z) (t : wstate) : wstate :=
  match wpc t with
  | W_srand => set_wpc t W_cpu_zero
  | W_cpu_zero =>
      {| wpc := W_cpu_set; wbuf := wbuf t; cpus := []; affinity := affinity t |}
  | W_cpu_set =>
      {| wpc := W_setaffinity; wbuf := wbuf t; cpus := cpu w :: cpus t;
         affinity := affinity t |}
  | W_setaffinity =>
      {| wpc := W_wait; wbuf := wbuf t; cpus := cpus t;
         affinity := if env =? 0 then Some (cpus t) else affinity t |}
  | _ => t
  end.

(** ** The litmus test of the header comment (lines 14-34) *)

(** Both workers have taken their start signal, left the delay loop and
    stand at their store. *)
Definition sched_ready : list action :=
  startup_main ++ startup_worker W1 0 ++ startup_worker W2 0 ++ open_trial ++
  [Run (TWorker W1) 0; Run (TWorker W1) 8; Run (TWorker W2) 0; Run (TWorker W2) 8].

Definition st_ready : state := Eval vm_compute in final SC sched_ready.

(** The four operations as the comment numbers them: 1 is [X = 1] and 2 is
    [read Y] (thread 1); 3 is [Y = 1] and 4 is [read X] (thread 2).  A store
    runs together with the barrier that follows it. *)
Definition op_actions (n : nat) : list action :=
  match n with
  | 1%nat => [Run (TWorker W1) 0; Run (TWorker W1) 0]
  | 2%nat => [Run (TWorker W1) 0]
  | 3%nat => [Run (TWorker W2) 0; Run (TWorker W2) 0]
  | 4%nat => [Run (TWorker W2) 0]
  | _ => []
  end.

(** The values read of [X] and of [Y], in the comment's order, when the four
    operations run in the given order under [SC]. *)
Definition sc_outcome (order : list nat) : option (Z * Z) :=
  match run SC (flat_map op_actions order) st_ready with
  | Some (s, _) => Some (r2 (mem s), r1 (mem s))
  | None => None
  end.

(** ** Further properties of the program *)

(** 1 while [main] has posted worker [w]'s start signal (lines 149-150) and
    not yet taken its done signal (lines 152-153), else 0. *)
Definition awaited (p : mloc) (w : worker) : Z :=
  match w with
  | W1 => past (midx p) 2 - past (midx p) 4
  | W2 => past (midx p) 3 - past (midx p) 5
  end.

(** [pthread_create] for worker [w] answered an error. *)
Definition create_failed (w : worker) (e : event) : bool :=
  match e with
  | EvCreate w' rc => worker_eqb w w' && negb (rc =? 0)
  | _ => false
  end.

(** Worker 2 was not created: [main] stands at [sem_wait(&endSema2)]. *)
Definition sched_create_fails : list action :=
  main_startup 16 0 0 0 0 0 11 ++ startup_worker W1 0 ++ open_trial ++
  [Run (TWorker W1) 0; Run (TWorker W1) 8; Run (TWorker W1) 0;
   Run (TWorker W1) 0; Run (TWorker W1) 0; Run (TWorker W1) 0; Run TMain 0].

Definition st_create_fails : state :=
  Eval vm_compute in final SC sched_create_fails.
Definition tr_create_fails : list event :=
  Eval vm_compute in trace SC sched_create_fails.

(** Whether [main], standing at [p], has already run [sem_init] on [k]
    (the calls run in the order of lines 129-132). *)
Definition sem_inited (p : mloc) (k : semid) : bool :=
  match p with
  | M_sysconf | M_printf_nproc | M_sem_init (SBegin W1) => false
  | M_sem_init (SBegin W2) =>
      match k with SBegin W1 => true | _ => false end
  | M_sem_init (SEnd W1) =>
      match k with SBegin _ => true | _ => false end
  | M_sem_init (SEnd W2) =>
      match k with SEnd W2 => false | _ => true end
  | _ => true
  end.

(** No [sem_init] and no [pthread_create] answered an error. *)
Definition startup_ok (e : event) : bool :=
  match e with
  | EvSemInit _ rc | EvCreate _ rc => rc =? 0
  | _ => true
  end.

(** Every semaphore [main] has initialised is usable and every thread it has
    created exists. *)
Definition ready (s : state) : Prop :=
  let p := mpc (coord s) in
  (sem_inited p (SBegin W1) = true -> sem_ready (beginSema1 (sems s)) = true) /\
  (sem_inited p (SEnd W1) = true -> sem_ready (endSema1 (sems s)) = true) /\
  (sem_inited p (SBegin W2) = true -> sem_ready (beginSema2 (sems s)) = true) /\
  (sem_inited p (SEnd W2) = true -> sem_ready (endSema2 (sems s)) = true) /\
  (before_create p W1 = false -> wpc (thread1 s) <> W_not_started) /\
  (before_create p W2 = false -> wpc (thread2 s) <> W_not_started).

(** [pthread_setaffinity_np] for worker [w] answered success. *)
Definition is_bound (w : worker) (e : event) : bool :=
  match e with
  | EvSetAffinity w' rc => worker_eqb w w' && (rc =? 0)
  | _ => false
  end.

(** The CPU set a worker has built by lines 75-77 / 101-103, and its
    binding, along a trace. *)
Definition pinning (tr : list event) (s : state) (w : worker) : Prop :=
  let t := thread s w in
  (wpc t = W_cpu_set -> cpus t = []) /\
  (wpc t = W_setaffinity -> cpus t = [cpu w]) /\
  affinity t = if existsb (is_bound w) tr then Some [cpu w] else None.

(** The report lines of line 160 printed so far: [reports rs d t] when [rs]
    holds [d] lines, numbered 1 to [d], with strictly increasing trial
    indices of which [t] is the last (0 if there is none). *)
Inductive reports : list line -> Z -> Z -> Prop :=
| reports_nil : reports [] 0 0
| reports_snoc rs d t t' :
    reports rs d t -> t < t' ->
    reports (rs ++ [ReorderLine (d + 1) t']) (d + 1) t'.

(** What [main] has printed when it stands at a given program point. *)
Definition printed (s : state) : Prop :=
  let c := coord s in
  match mpc c with
  | M_sysconf | M_printf_nproc => stdout c = []
  | M_sem_init _ | M_pthread_create _ | M_locals =>
      stdout c = [ProcessorsLine (numberOfProcessors c)]
  | _ =>
      exists rs t,
        stdout c = ProcessorsLine (numberOfProcessors c) :: rs /\
        reports rs (detected c) t /\
        t <= iterations c /\ (midx (mpc c) <= 6 -> t < iterations c)
  end.

(** [sched_tso_00] just after the check of its first trial. *)
Definition tr_checked : list event :=
  Eval vm_compute in trace TSO (firstn 42 sched_tso_00).

(** The other worker. *)
Definition peer (w : worker) : worker :=
  match w with W1 => W2 | W2 => W1 end.

(** Whether a store to [x] is waiting in buffer [b]. *)
Definition has_var (x : var) (b : buffer) : bool :=
  existsb (fun xv => var_eqb x (fst xv)) b.

(** Once [main]'s reset of a cell for the current trial has reached memory,
    the cell holds 1 only if its worker has stored in the current trial
    (its store count is one more than the number of completed trials). *)
Definition fresh_cells (tr : list event) (s : state) : Prop :=
  let c := coord s in
  let k := count is_incr tr in
  (in_loop (mpc c) = true -> 1 <= midx (mpc c) ->
   has_var vX (mbuf c) = false -> X (mem s) = 1 ->
   count (is_store_by (TWorker W1) vX) tr = k + 1) /\
  (in_loop (mpc c) = true -> 2 <= midx (mpc c) ->
   has_var vY (mbuf c) = false -> Y (mem s) = 1 ->
   count (is_store_by (TWorker W2) vY) tr = k + 1).

(** Both workers stand at their load; worker 2's store has reached memory,
    worker 1's has not. *)
Definition sched_loads : list action :=
  firstn 23 sched_tso_00 ++
  [Run (TWorker W1) 0; Run (TWorker W1) 8; Run (TWorker W2) 0; Run (TWorker W2) 16;
   Run (TWorker W1) 0; Run (TWorker W2) 0; Run (TWorker W1) 0; Run (TWorker W2) 0;
   Flush (TWorker W2)].

Definition st_loads : state := Eval vm_compute in final TSO sched_loads.
Definition tr_loads : list event := Eval vm_compute in trace TSO sched_loads.



(** * Proofs *)

(** ** Counting and folding over a growing trace *)

Section Counting.

Variable p : event -> bool.

Lemma count_nil : count p [] = 0.
Proof. reflexivity. Qed.

Lemma count_snoc tr e :
  count p (tr ++ [e]) = count p tr + (if p e then 1 else 0).
Proof.
  unfold count. rewrite filter_app, length_app. simpl.
  destruct (p e); simpl; lia.
Qed.

Lemma count_nonneg tr : 0 <= count p tr.
Proof. unfold count. lia. Qed.


End Counting.

Lemma count_le (p q : event -> bool) tr :
  (forall e, p e = true -> q e = true) -> count p tr <= count q tr.
Proof.
  intros H. induction tr as [|e tr IH] using rev_ind.
  - rewrite !count_nil. lia.
  - rewrite !count_snoc. specialize (H e).
    destruct (p e), (q e); try lia.
Qed.

Lemma last_copy_snoc w tr e :
  last_copy w (tr ++ [e]) = copied w (last_copy w tr) e.
Proof. unfold last_copy. rewrite fold_left_app. reflexivity. Qed.

(** ** The synchronisation invariant holds on every execution *)

(** Unfolds one machine step on a state whose components are explicit. *)
Ltac step_cases H :=
  unfold step, thread1Func, thread2Func, main, threadFunc, flush, check_reorder,
    sem_init, pthread_create, sem_post, sem_wait, drained, write in H;
  cbn in H;
  repeat match type of H with
    | context [match ?b with [] => _ | _ :: _ => _ end] =>
        destruct b as [|[? ?] ?]; cbn in H
    | context [if ?b then _ else _] =>
        let E := fresh "E" in destruct b eqn:E; cbn in H
    end;
  try discriminate H;
  try (injection H as <- <-).

Ltac bools :=
  repeat match goal with
    | H : _ && _ = true |- _ => apply andb_prop in H; destruct H
    | H : (_ <? _) = true |- _ => apply Z.ltb_lt in H
    | H : (_ <? _) = false |- _ => apply Z.ltb_ge in H
    | H : (_ =? _) = true |- _ => apply Z.eqb_eq in H
    | H : (_ =? _) = false |- _ => apply Z.eqb_neq in H
    end.

Lemma sync_init : sync [] init.
Proof. unfold sync, msync, wsync. cbn. lia. Qed.

Ltac count_step :=
  rewrite !count_snoc; unfold past, INT_MAX in *; cbn in *;
  try match goal with
    | H : context [in_loop ?p] |- _ => is_var p; destruct (in_loop p)
    end;
  lia.

Lemma sync_step mm tr s a s' e :
  sync tr s -> step mm a s = Some (s', e) -> sync (tr ++ [e]) s'.
Proof.
  intros (HM & H1 & H2) Hs.
  destruct s as [[p mb np d it out] [x y a1 a2]
                 [[b1 b1r] [e1 e1r] [b2 b2r] [e2 e2r]]
                 [p1 wb1 c1 af1] [p2 wb2 c2 af2]].
  unfold sync, msync, wsync in *. cbn in HM, H1, H2.
  pose proof (count_nonneg (is_wait (TWorker W1) (SBegin W1)) tr).
  pose proof (count_nonneg (is_wait (TWorker W2) (SBegin W2)) tr).
  pose proof (count_nonneg (is_post (TWorker W1) (SEnd W1)) tr).
  pose proof (count_nonneg (is_post (TWorker W2) (SEnd W2)) tr).
  pose proof (count_nonneg is_incr tr).
  destruct a as [[|[|]] env|t].
  - (* a statement of main *)
    destruct p as [| |[[|]|[|]]|[|]| | | |[|]|[|]| |]; destruct mm;
      step_cases Hs; bools; try count_step.
    all: try (destruct p1; count_step).
    all: destruct p2; count_step.
  - (* a statement of thread1Func *)
    destruct p1; destruct mm; step_cases Hs; bools; count_step.
  - (* a statement of thread2Func *)
    destruct p2; destruct mm; step_cases Hs; bools; count_step.
  - (* a buffered store reaches memory *)
    destruct mm; [discriminate|].
    destruct t as [|[|]]; step_cases Hs; count_step.
Qed.

Lemma exec_sync mm tr s : exec mm init tr s -> sync tr s.
Proof.
  induction 1 as [|tr s a s' e _ IH Hs].
  - exact sync_init.
  - eapply sync_step; eassumption.
Qed.

(** ** Values and store buffers on every execution *)

Lemma buf_lookup_snoc b x v y :
  buf_lookup (b ++ [(x, v)]) y = if var_eqb y x then Some v else buf_lookup b y.
Proof.
  induction b as [|[z u] b IH]; cbn.
  - reflexivity.
  - rewrite IH. destruct (var_eqb y x); reflexivity.
Qed.

Lemma buf_lookup_bit b x v :
  Forall (fun xv => bit (snd xv)) b -> buf_lookup b x = Some v -> bit v.
Proof.
  induction 1 as [|[y u] b Hu _ IH]; cbn; [discriminate|].
  destruct (buf_lookup b x).
  - intros [= <-]. auto.
  - destruct (var_eqb x y); [intros [= <-]; exact Hu | discriminate].
Qed.

Lemma mentry_bit xv : mentry xv -> bit (snd xv).
Proof. intros [_ ->]. left; reflexivity. Qed.

Lemma wentry_bit w xv : wentry w xv -> bit (snd xv).
Proof. intros [[_ ->]|[_ H]]; [right; reflexivity | exact H]. Qed.

Lemma data_init mm : data mm [] init.
Proof.
  unfold data, wdata, mem_bits, bit. cbn.
  repeat split; auto; try constructor; discriminate.
Qed.

Lemma lookup_bit (P : var * Z -> Prop) b x m :
  Forall P b -> (forall xv, P xv -> bit (snd xv)) -> bit m ->
  bit (match buf_lookup b x with Some v => v | None => m end).
Proof.
  intros H HP Hm. destruct (buf_lookup b x) eqn:E; [|exact Hm].
  eapply buf_lookup_bit; [|exact E].
  eapply Forall_impl; [|exact H]. exact HP.
Qed.

Ltac data_open H :=
  unfold data, wdata, mem_bits, read, buf_of, thread in *; cbn in *;
  destruct H as (? & ? & (? & ? & ? & ?) & ? & ? & ? & (? & ? & ?) & ? & ? & ?);
  repeat match goal with
    | H : true = true -> _ |- _ => specialize (H eq_refl)
    | H : SC = SC -> _ |- _ => specialize (H eq_refl)
    | H : _ \/ SC = SC -> _ |- _ => specialize (H (or_intror eq_refl))
    | H : ?a <= 2 \/ _ -> _ |- _ =>
        let K := fresh in
        assert (K : a <= 2) by lia; specialize (H (or_introl K)); clear K
    end;
  subst; try discriminate; rewrite ?last_copy_snoc, ?buf_lookup_snoc; cbn in *.

Ltac lookup_bit_tac :=
  eapply lookup_bit;
  [eassumption | first [exact mentry_bit | apply wentry_bit] | assumption].

Ltac leaf :=
  auto; try discriminate; try lia; try congruence;
  repeat match goal with
    | |- Forall _ (_ ++ _) => apply Forall_app; split
    | |- Forall _ [_] => constructor; [|constructor]
    | |- Forall _ [] => constructor
    end;
  try assumption;
  try lookup_bit_tac;
  try match goal with
    | |- wentry _ _ =>
        first [ left; split; reflexivity
              | right; split; [reflexivity|];
                first [ lookup_bit_tac | left; reflexivity | right; reflexivity ] ]
    | |- mentry _ => split; [first [left; reflexivity | right; reflexivity] | reflexivity]
    | |- bit _ => first [left; reflexivity | right; reflexivity]
    end.

Ltac flush_entry :=
  match goal with
  | H : Forall mentry (_ :: _) |- _ =>
      inversion H as [|? ? [[?|?] ?] ?]; clear H
  | H : Forall (wentry _) (_ :: _) |- _ =>
      inversion H as [|? ? [[? ?]|[? ?]] ?]; clear H
  end;
  cbn in *; subst; cbn in *;
  repeat match goal with
    | H : context [buf_lookup ?b ?x] |- _ => destruct (buf_lookup b x)
    end.

Lemma data_step mm tr s a s' e :
  data mm tr s -> step mm a s = Some (s', e) -> data mm (tr ++ [e]) s'.
Proof.
  intros HD Hs.
  destruct s as [[p mb np d it out] [x y a1 a2]
                 [[b1 b1r] [e1 e1r] [b2 b2r] [e2 e2r]]
                 [p1 wb1 c1 af1] [p2 wb2 c2 af2]].
  destruct a as [[|[|]] env|t].
  - destruct p as [| |[[|]|[|]]|[|]| | | |[|]|[|]| |]; destruct mm;
      step_cases Hs; bools; data_open HD;
      try (intuition leaf; fail).
  - destruct p1; destruct mm;
      step_cases Hs; bools; data_open HD;
      try (intuition leaf; fail).
  - destruct p2; destruct mm;
      step_cases Hs; bools; data_open HD;
      try (intuition leaf; fail).
  - destruct mm; [discriminate|].
    destruct t as [|[|]]; step_cases Hs; data_open HD; flush_entry;
      try (intuition leaf; fail).
Qed.

Lemma exec_data mm tr s : exec mm init tr s -> data mm tr s.
Proof.
  induction 1 as [|tr s a s' e _ IH Hs].
  - apply data_init.
  - eapply data_step; eassumption.
Qed.

(** ** Sequentially consistent executions *)

Lemma past_mono idx :
  0 <= past idx 7 <= past idx 6 /\ past idx 6 <= past idx 5 /\
  past idx 5 <= past idx 4 /\ past idx 4 <= past idx 3 /\
  past idx 3 <= past idx 2 /\ past idx 2 <= past idx 1 /\
  past idx 1 <= past idx 0 /\ past idx 0 <= 1.
Proof.
  unfold past.
  repeat match goal with |- context [?a <? idx] => destruct (Z.ltb_spec a idx) end;
    lia.
Qed.

Lemma scdata_init : scdata [] init.
Proof. unfold scdata. cbn. lia. Qed.

Lemma data_sc_drained tr s :
  data SC tr s -> mbuf (coord s) = [] /\ wbuf (thread1 s) = [] /\ wbuf (thread2 s) = [].
Proof.
  unfold data, wdata. cbn. intuition.
Qed.

Ltac sc_step :=
  rewrite !count_snoc; unfold past, INT_MAX in *; cbn in *; lia.

Lemma scdata_step tr s a s' e :
  sync tr s -> data SC tr s -> scdata tr s ->
  step SC a s = Some (s', e) -> scdata (tr ++ [e]) s'.
Proof.
  intros (HM & H1 & H2) HD HS Hs.
  apply data_sc_drained in HD.
  destruct s as [[p mb np d it out] [x y a1 a2]
                 [[b1 b1r] [e1 e1r] [b2 b2r] [e2 e2r]]
                 [p1 wb1 c1 af1] [p2 wb2 c2 af2]].
  cbn in HD. destruct HD as (-> & -> & ->).
  pose proof (past_mono (midx p)) as Pm.
  pose proof (past_mono (widx p1)) as P1.
  pose proof (past_mono (widx p2)) as P2.
  unfold msync, wsync, scdata in *. cbn in HM, H1, H2, HS.
  pose proof (count_nonneg is_incr tr).
  pose proof (count_nonneg (is_post (TWorker W1) (SEnd W1)) tr).
  pose proof (count_nonneg (is_post (TWorker W2) (SEnd W2)) tr).
  destruct a as [[|[|]] env|t].
  - destruct p as [| |[[|]|[|]]|[|]| | | |[|]|[|]| |];
      step_cases Hs; bools; sc_step.
  - destruct p1; step_cases Hs; bools; sc_step.
  - destruct p2; step_cases Hs; bools; sc_step.
  - discriminate.
Qed.

Lemma exec_scdata tr s : exec SC init tr s -> scdata tr s.
Proof.
  induction 1 as [|tr s a s' e Hex IH Hs].
  - exact scdata_init.
  - eapply scdata_step; try eassumption.
    + eapply exec_sync; eassumption.
    + eapply exec_data; eassumption.
Qed.

(** ** Control flow of each thread along an execution *)

Lemma worker_view mm a s s' e w :
  (before_create (mpc (coord s)) w = true -> wpc (thread s w) = W_not_started) ->
  step mm a s = Some (s', e) ->
  (worker_event w e = true /\ wtrans w (wpc (thread s w)) e (wpc (thread s' w))) \/
  (worker_event w e = false /\
   (wpc (thread s' w) = wpc (thread s w) \/
    (widx (wpc (thread s w)) = 0 /\ widx (wpc (thread s' w)) = 0))).
Proof.
  intros Hc Hs.
  destruct s as [[p mb np d it out] [x y a1 a2]
                 [[b1 b1r] [e1 e1r] [b2 b2r] [e2 e2r]]
                 [p1 wb1 c1 af1] [p2 wb2 c2 af2]].
  destruct a as [[|[|]] env|t].
  - destruct p as [| |[[|]|[|]]|[|]| | | |[|]|[|]| |]; destruct mm, w;
      step_cases Hs; cbn; auto.
    all: cbn in Hc; rewrite (Hc eq_refl); cbn; auto.
  - destruct p1; destruct mm, w; step_cases Hs; bools; cbn; eauto 7.
    all: left; split; [reflexivity|]; exists env; split; [reflexivity|].
    all: destruct (Z.rem env 8 =? 0) eqn:E'; bools; try discriminate; auto.
  - destruct p2; destruct mm, w; step_cases Hs; bools; cbn; eauto 7.
    all: left; split; [reflexivity|]; exists env; split; [reflexivity|].
    all: destruct (Z.rem env 8 =? 0) eqn:E'; bools; try discriminate; auto.
  - destruct mm; [discriminate|].
    destruct t as [|[|]], w; step_cases Hs; cbn; auto.
Qed.







(** ** Schedules and executions *)

Lemma exec_run mm sched : forall s0 tr0 s s' tr,
  exec mm s0 tr0 s -> run mm sched s = Some (s', tr) -> exec mm s0 (tr0 ++ tr) s'.
Proof.
  induction sched as [|a rest IH]; cbn; intros s0 tr0 s s' tr Hex Hr.
  - injection Hr as <- <-. rewrite app_nil_r. exact Hex.
  - destruct (step mm a s) as [[s1 e]|] eqn:Hs; [|discriminate].
    destruct (run mm rest s1) as [[s2 tr']|] eqn:Hr'; [|discriminate].
    injection Hr as <- <-.
    replace (tr0 ++ e :: tr') with ((tr0 ++ [e]) ++ tr')
      by (now rewrite <- app_assoc).
    eapply IH; [|exact Hr']. econstructor; eassumption.
Qed.

Lemma run_exec mm sched s tr :
  run mm sched init = Some (s, tr) -> exec mm init tr s.
Proof. apply (exec_run mm sched init [] init s tr (exec_nil mm init)). Qed.

(** ** The detection counter (C1, C10) *)

Lemma step_detected mm a s s' e :
  step mm a s = Some (s', e) ->
  match e with
  | EvCheck x y =>
      mpc (coord s) = M_check /\
      x = read s TMain vR1 /\ y = read s TMain vR2 /\
      (x = 0 /\ y = 0 ->
       detected (coord s') = detected (coord s) + 1 /\
       stdout (coord s') =
         stdout (coord s) ++
         [ReorderLine (detected (coord s) + 1) (iterations (coord s))]) /\
      (~ (x = 0 /\ y = 0) ->
       detected (coord s') = detected (coord s) /\
       stdout (coord s') = stdout (coord s))
  | EvLocals =>
      mpc (coord s) = M_locals /\
      detected (coord s') = 0 /\ stdout (coord s') = stdout (coord s)
  | EvPrintf l =>
      detected (coord s') = detected (coord s) /\
      stdout (coord s') = stdout (coord s) ++ [l]
  | _ =>
      detected (coord s') = detected (coord s) /\
      stdout (coord s') = stdout (coord s)
  end.
Proof.
  intros Hs.
  destruct s as [[p mb np d it out] [x y a1 a2]
                 [[b1 b1r] [e1 e1r] [b2 b2r] [e2 e2r]]
                 [p1 wb1 c1 af1] [p2 wb2 c2 af2]].
  destruct a as [[|[|]] env|t].
  - destruct p as [| |[[|]|[|]]|[|]| | | |[|]|[|]| |]; destruct mm;
      step_cases Hs; cbn; auto.
    all: unfold read in *; cbn in *;
      (split; [reflexivity|split; [reflexivity|split; [reflexivity|split]]]);
      intros HH;
      first [ split; reflexivity
            | exfalso; apply HH; bools; auto; fail
            | destruct HH as [Hx Hy]; rewrite Hx, Hy in *; discriminate ].
  - destruct p1; destruct mm; step_cases Hs; cbn; auto.
  - destruct p2; destruct mm; step_cases Hs; cbn; auto.
  - destruct mm; [discriminate|].
    destruct t as [|[|]]; step_cases Hs; cbn; auto.
Qed.

Lemma exec_detected mm tr s :
  exec mm init tr s -> detected (coord s) = count is_violation tr.
Proof.
  induction 1 as [|tr s a s' e Hex IH Hs]; [reflexivity|].
  pose proof (step_detected _ _ _ _ _ Hs) as Hd.
  pose proof (exec_sync _ _ _ Hex) as (HM & _).
  pose proof (count_le is_violation is_check tr) as Hle.
  pose proof (count_nonneg is_violation tr).
  rewrite count_snoc.
  destruct e; cbn in *; try lia.
  - (* int detected = 0 *)
    destruct Hd as (Hp & -> & _). unfold msync in HM. rewrite Hp in HM. cbn in HM.
    assert (count is_violation tr <= count is_check tr).
    { apply Hle. intros [] ; cbn; auto; discriminate. }
    unfold past in *; cbn in *; lia.
  - (* the check *)
    destruct Hd as (_ & _ & _ & Hy & Hn).
    destruct (Z.eqb_spec a0 0), (Z.eqb_spec b 0); cbn; lia.
Qed.

Lemma check_defined mm tr s env :
  exec mm init tr s -> mpc (coord s) = M_check ->
  exists s', step mm (Run TMain env) s = Some (s', EvCheck (r1 (mem s)) (r2 (mem s))).
Proof.
  intros Hex Hp.
  pose proof (exec_sync _ _ _ Hex) as (HM & _).
  pose proof (exec_data _ _ _ Hex) as (_ & _ & _ & _ & Hb & _).
  unfold msync in HM. rewrite Hp in *. cbn in HM, Hb.
  destruct Hb as [Hb|[Hb|Hb]]; try discriminate.
  destruct s as [[p mb np d it out] [x y a1 a2] ss t1 t2].
  cbn in *. subst p mb.
  unfold main, check_reorder, read. cbn.
  destruct ((a1 =? 0) && (a2 =? 0)); [|eauto].
  destruct (Z.ltb_spec d INT_MAX); [eauto|].
  unfold past in *; cbn in *; lia.
Qed.

(** C1: the check of lines 156-161 increments [detected] by exactly 1 and
    prints the report line carrying the new count and the current
    [iterations] exactly when both result cells are 0; for every other result
    pair, and in every other step of the program, [detected] and the output
    are unchanged (the start-up line of 126 apart).  The check always runs to
    completion, and [detected] equals the number of checks so far that saw
    (0,0): it never decreases and grows at most once per check. *)
Theorem detection_counter mm tr s a s' e :
  exec mm init tr s -> step mm a s = Some (s', e) ->
  match e with
  | EvCheck x y =>
      x = r1 (mem s) /\ y = r2 (mem s) /\
      (x = 0 /\ y = 0 ->
       detected (coord s') = detected (coord s) + 1 /\
       stdout (coord s') =
         stdout (coord s) ++
         [ReorderLine (detected (coord s) + 1) (iterations (coord s))]) /\
      (~ (x = 0 /\ y = 0) ->
       detected (coord s') = detected (coord s) /\
       stdout (coord s') = stdout (coord s))
  | EvPrintf l =>
      detected (coord s') = detected (coord s) /\
      stdout (coord s') = stdout (coord s) ++ [l]
  | _ =>
      detected (coord s') = detected (coord s) /\
      stdout (coord s') = stdout (coord s)
  end /\
  (mpc (coord s) = M_check ->
   forall env, exists s1,
     step mm (Run TMain env) s = Some (s1, EvCheck (r1 (mem s)) (r2 (mem s)))) /\
  detected (coord s) = count is_violation tr /\
  detected (coord s') = count is_violation (tr ++ [e]) /\
  count is_violation tr <= count is_check tr.
Proof.
  intros Hex Hs.
  assert (Hex' : exec mm init (tr ++ [e]) s') by (econstructor; eassumption).
  pose proof (exec_detected _ _ _ Hex) as Hd.
  pose proof (exec_detected _ _ _ Hex') as Hd'.
  pose proof (step_detected _ _ _ _ _ Hs) as H.
  repeat split; auto.
  - destruct e; try exact H.
    + (* int detected = 0 *)
      destruct H as (_ & H0 & Ho). split; [|exact Ho].
      rewrite Hd, Hd', count_snoc. cbn. lia.
    + (* the check reads r1 and r2 from memory *)
      destruct H as (Hp & Hx & Hy & H). 
      pose proof (exec_data _ _ _ Hex) as (_ & _ & _ & _ & Hb & _).
      rewrite Hp in Hb. cbn in Hb.
      destruct Hb as [Hb|[Hb|Hb]]; try discriminate.
      unfold read in Hx, Hy. cbn in Hx, Hy. rewrite Hb in Hx, Hy. cbn in Hx, Hy.
      auto.
  - intros Hp env. eapply check_defined; eassumption.
  - apply count_le. intros []; cbn; auto; discriminate.
Qed.

Lemma detection_counter_witness :
  exec TSO init tr_check st_check /\
  step TSO (Run TMain 0) st_check = Some (st_checked, EvCheck 0 0) /\
  detected (coord st_checked) = detected (coord st_check) + 1 /\
  stdout (coord st_checked) = stdout (coord st_check) ++ [ReorderLine 1 1].
Proof.
  assert (H1 : exec TSO init tr_check st_check)
    by (apply (run_exec TSO sched_tso_00_check); vm_compute; reflexivity).
  assert (H2 : step TSO (Run TMain 0) st_check = Some (st_checked, EvCheck 0 0))
    by (vm_compute; reflexivity).
  split; [exact H1|]. split; [exact H2|].
  destruct (detection_counter TSO tr_check st_check (Run TMain 0) st_checked
              (EvCheck 0 0) H1 H2) as ((_ & _ & Hyes & _) & _).
  exact (Hyes (conj eq_refl eq_refl)).
Defined.

Lemma check_step mm tr s env s' e :
  exec mm init tr s -> mpc (coord s) = M_check ->
  step mm (Run TMain env) s = Some (s', e) ->
  e = EvCheck (r1 (mem s)) (r2 (mem s)) /\
  (r1 (mem s) = 0 /\ r2 (mem s) = 0 ->
   detected (coord s') = detected (coord s) + 1 /\
   stdout (coord s') =
     stdout (coord s) ++
     [ReorderLine (detected (coord s) + 1) (iterations (coord s))]) /\
  (~ (r1 (mem s) = 0 /\ r2 (mem s) = 0) ->
   detected (coord s') = detected (coord s) /\
   stdout (coord s') = stdout (coord s)).
Proof.
  intros Hex Hp Hs.
  destruct (check_defined mm tr s env Hex Hp) as (s1 & Hs1).
  rewrite Hs1 in Hs. injection Hs as <- <-.
  split; [reflexivity|].
  pose proof (step_detected _ _ _ _ _ Hs1) as (_ & _ & _ & H). exact H.
Qed.

(** C10: the trial index is 1-based.  Inside the loop [iterations] is one
    more than the number of completed iterations ([iterations++] runs only
    after the check) and stays within [int]; so the N-th check holds index N,
    and a report printed by the N-th check carries N; the first check
    reports index 1. *)
Theorem trial_index_one_based mm tr s :
  exec mm init tr s -> in_loop (mpc (coord s)) = true ->
  iterations (coord s) = count is_incr tr + 1 /\
  1 <= iterations (coord s) <= INT_MAX /\
  (mpc (coord s) = M_check ->
   count is_check tr = count is_incr tr /\
   forall env s' e,
     step mm (Run TMain env) s = Some (s', e) ->
     r1 (mem s) = 0 -> r2 (mem s) = 0 ->
     stdout (coord s') =
       stdout (coord s) ++
       [ReorderLine (detected (coord s) + 1) (count is_check tr + 1)]).
Proof.
  intros Hex Hl.
  pose proof (exec_sync _ _ _ Hex) as (HM & _).
  pose proof (count_nonneg is_incr tr) as Hk.
  unfold msync in HM. rewrite Hl in HM.
  destruct HM as (_ & _ & _ & _ & _ & _ & Hc & Hi & Hmax & _).
  split; [exact Hi|]. split; [lia|].
  intros Hp. rewrite Hp in Hc. cbn in Hc.
  split; [unfold past in Hc; cbn in Hc; lia|].
  intros env s' e Hs Ha Hb.
  destruct (check_step mm tr s env s' e Hex Hp Hs) as (_ & Hyes & _).
  destruct (Hyes (conj Ha Hb)) as (_ & ->).
  rewrite Hi. unfold past in Hc; cbn in Hc. do 3 f_equal. lia.
Qed.

Lemma trial_index_one_based_witness :
  exec TSO init tr_check st_check /\
  in_loop (mpc (coord st_check)) = true /\
  iterations (coord st_check) = 1 /\
  stdout (coord st_checked) = [ProcessorsLine 16; ReorderLine 1 1].
Proof.
  assert (H1 : exec TSO init tr_check st_check)
    by (apply (run_exec TSO sched_tso_00_check); vm_compute; reflexivity).
  split; [exact H1|]. split; [reflexivity|].
  destruct (trial_index_one_based TSO tr_check st_check H1 eq_refl)
    as (Hi & _ & Hc).
  split; [exact Hi|].
  destruct (Hc eq_refl) as (_ & Hr).
  apply (Hr 0 st_checked (EvCheck 0 0)); vm_compute; reflexivity.
Defined.

(** ** The barrier between trials (C5), the result cells (C6, C2, C9) *)

Lemma last_copy_some w tr :
  1 <= count (is_copy_by w) tr -> exists v, last_copy w tr = Some v.
Proof.
  induction tr as [|e tr IH] using rev_ind.
  - rewrite count_nil. lia.
  - rewrite count_snoc, last_copy_snoc. unfold copied.
    destruct (is_copy_by w e) eqn:E.
    + destruct e; try discriminate. eauto.
    + intros H. apply IH. lia.
Qed.

(** C5: when [main] is about to reset [X] or [Y] for the next trial, with
    [n] trials completed, it has sent [n] start signals to, and taken [n]
    done signals from, each worker; each worker has taken [n] start signals
    and posted [n] done signals, stands outside its transaction with a
    drained buffer, and no signal is pending.  Conversely a worker inside its
    transaction is in trial [n+1] while [main] is between posting that
    worker's start signal and taking its done signal. *)
Theorem barrier_between_trials mm tr s w :
  exec mm init tr s ->
  let n := count is_incr tr in
  (mpc (coord s) = M_reset_X \/ mpc (coord s) = M_reset_Y ->
   count (is_post TMain (SBegin w)) tr = n /\
   count (is_wait (TWorker w) (SBegin w)) tr = n /\
   count (is_post (TWorker w) (SEnd w)) tr = n /\
   count (is_wait TMain (SEnd w)) tr = n /\
   sem_value (sem_get (sems s) (SBegin w)) = 0 /\
   sem_value (sem_get (sems s) (SEnd w)) = 0 /\
   widx (wpc (thread s w)) = 0 /\
   wbuf (thread s w) = []) /\
  (1 <= widx (wpc (thread s w)) ->
   3 <= midx (mpc (coord s)) <= 5 /\
   count (is_post TMain (SBegin w)) tr = n + 1 /\
   count (is_wait (TWorker w) (SBegin w)) tr = n + 1 /\
   count (is_post (TWorker w) (SEnd w)) tr = n /\
   count (is_wait TMain (SEnd w)) tr = n).
Proof.
  intros Hex n. subst n.
  pose proof (exec_sync _ _ _ Hex) as (HM & H1 & H2).
  pose proof (exec_data _ _ _ Hex) as (_ & _ & _ & _ & _ & _ & D1 & D2).
  assert (HW : wsync tr s w) by (destruct w; assumption).
  assert (HD : wdata mm tr s w) by (destruct w; assumption).
  clear H1 H2 D1 D2.
  destruct HD as (_ & Hb & _).
  unfold msync, wsync in *.
  pose proof (count_nonneg is_incr tr).
  pose proof (count_nonneg (is_post (TWorker w) (SEnd w)) tr).
  split.
  - intros Hp.
    assert (Hi : widx (wpc (thread s w)) = 0).
    { destruct (wpc (thread s w)), w; destruct Hp as [Hp|Hp]; rewrite Hp in HM;
        unfold past in *; cbn in *; lia. }
    rewrite Hi in *.
    assert (wbuf (thread s w) = []) by (apply Hb; left; lia).
    destruct w; destruct Hp as [Hp|Hp]; rewrite Hp in HM;
      unfold past in *; cbn in *; repeat split; auto; lia.
  - intros Hw.
    destruct (mpc (coord s)) as [| |k|w'| | | |[|]|[|]| |];
      destruct (wpc (thread s w)), w;
      unfold past in *; cbn in *; lia.
Qed.

Lemma barrier_between_trials_witness :
  exec TSO init tr_w1_delay st_w1_delay /\
  1 <= widx (wpc (thread st_w1_delay W1)) /\
  3 <= midx (mpc (coord st_w1_delay)) <= 5 /\
  count (is_post (TWorker W1) (SEnd W1)) tr_w1_delay = count is_incr tr_w1_delay.
Proof.
  assert (H1 : exec TSO init tr_w1_delay st_w1_delay)
    by (apply (run_exec TSO sched_w1_delay); vm_compute; reflexivity).
  assert (H2 : 1 <= widx (wpc (thread st_w1_delay W1))) by (vm_compute; discriminate).
  split; [exact H1|]. split; [exact H2|].
  destruct (barrier_between_trials TSO tr_w1_delay st_w1_delay W1 H1) as (_ & H).
  destruct (H H2) as (Hm & _ & _ & Hp & _).
  split; [exact Hm | exact Hp].
Defined.

(** C6: in every reachable state, under either memory model, the shared
    cells hold 0 or 1 only; in particular when [main] checks a completed
    trial the pair (r1, r2) is one of (0,0), (0,1), (1,0), (1,1). *)
Theorem result_pair_range mm tr s :
  exec mm init tr s ->
  In (r1 (mem s), r2 (mem s)) [(0, 0); (0, 1); (1, 0); (1, 1)] /\
  bit (X (mem s)) /\ bit (Y (mem s)).
Proof.
  intros Hex.
  pose proof (exec_data _ _ _ Hex) as (_ & _ & (Hx & Hy & [Ha|Ha] & [Hb|Hb]) & _);
    rewrite Ha, Hb; cbn; auto 6.
Qed.

Lemma result_pair_range_witness :
  exec TSO init tr_check st_check /\
  In (r1 (mem st_check), r2 (mem st_check)) [(0, 0); (0, 1); (1, 0); (1, 1)].
Proof.
  assert (H1 : exec TSO init tr_check st_check)
    by (apply (run_exec TSO sched_tso_00_check); vm_compute; reflexivity).
  split; [exact H1|].
  exact (proj1 (result_pair_range TSO tr_check st_check H1)).
Defined.

(** C2: under sequential consistency, whenever [main] stands at the check,
    each worker has performed its load in this trial, memory holds the two
    loaded values, and at least one of them is 1: (0,0) is unreachable.
    Consequently nothing is ever detected under [SC]. *)
Theorem sc_excludes_zero_zero tr s :
  exec SC init tr s ->
  detected (coord s) = 0 /\
  (mpc (coord s) = M_check ->
   exists v1 v2,
     last_copy W1 tr = Some v1 /\ last_copy W2 tr = Some v2 /\
     r1 (mem s) = v1 /\ r2 (mem s) = v2 /\
     (v1 = 1 \/ v2 = 1) /\ ~ (r1 (mem s) = 0 /\ r2 (mem s) = 0)).
Proof.
  intros Hex.
  pose proof (exec_scdata _ _ Hex) as (_ & _ & Hr & Hd).
  split; [exact Hd|]. intros Hp.
  pose proof (exec_sync _ _ _ Hex) as (HM & H1 & H2).
  pose proof (exec_data _ _ _ Hex) as HD.
  pose proof (data_sc_drained _ _ HD) as (_ & B1 & B2).
  destruct HD as (_ & _ & _ & _ & _ & _ & (_ & _ & L1) & (_ & _ & L2)).
  unfold msync, wsync in *. rewrite Hp in HM. cbn in HM, H1, H2.
  pose proof (count_nonneg is_incr tr).
  pose proof (past_mono (widx (wpc (thread1 s)))).
  pose proof (past_mono (widx (wpc (thread2 s)))).
  assert (C1 : count (is_copy_by W1) tr = count is_incr tr + 1)
    by (unfold past in *; cbn in *; lia).
  assert (C2 : count (is_copy_by W2) tr = count is_incr tr + 1)
    by (unfold past in *; cbn in *; lia).
  destruct (last_copy_some W1 tr) as (v1 & E1); [lia|].
  destruct (last_copy_some W2 tr) as (v2 & E2); [lia|].
  specialize (L1 v1 E1). specialize (L2 v2 E2).
  unfold read in L1, L2. cbn in L1, L2. rewrite B1 in L1. rewrite B2 in L2.
  cbn in L1, L2.
  exists v1, v2. repeat split; auto.
  - rewrite <- L1, <- L2. apply Hr; lia.
  - intros [Ha Hb]. destruct Hr as [Hr|Hr]; lia.
Qed.

Lemma sc_excludes_zero_zero_witness :
  exec SC init tr_sc_check st_sc_check /\
  mpc (coord st_sc_check) = M_check /\
  ~ (r1 (mem st_sc_check) = 0 /\ r2 (mem st_sc_check) = 0).
Proof.
  assert (H1 : exec SC init tr_sc_check st_sc_check)
    by (apply (run_exec SC sched_sc_01_check); vm_compute; reflexivity).
  split; [exact H1|]. split; [reflexivity|].
  destruct (sc_excludes_zero_zero tr_sc_check st_sc_check H1) as (_ & H).
  destruct (H eq_refl) as (v1 & v2 & _ & _ & _ & _ & _ & Hn).
  exact Hn.
Defined.

(** The six interleavings of lines 29-30, with the values the source comment
    lists for them. *)
Example sc_interleavings :
  map sc_outcome
    [[1; 2; 3; 4]; [1; 3; 2; 4]; [1; 3; 4; 2];
     [3; 1; 2; 4]; [3; 4; 1; 2]; [3; 1; 4; 2]]%nat =
  [Some (1, 0); Some (1, 1); Some (1, 1);
   Some (1, 1); Some (0, 1); Some (1, 1)].
Proof. vm_compute. reflexivity. Qed.

(** With store buffers the excluded outcome is reached: [sched_tso_00] stands
    at the check with both result cells 0. *)
Example tso_reaches_zero_zero :
  exec TSO init tr_check st_check /\
  mpc (coord st_check) = M_check /\
  r1 (mem st_check) = 0 /\ r2 (mem st_check) = 0.
Proof.
  split; [|repeat split].
  apply (run_exec TSO sched_tso_00_check). vm_compute. reflexivity.
Qed.

Lemma step_writer mm tr s a s' e w t :
  data mm tr s -> step mm a s = Some (s', e) ->
  writer (res w) e = Some t -> t = TWorker w.
Proof.
  intros HD Hs.
  destruct s as [[p mb np d it out] [x y a1 a2]
                 [[b1 b1r] [e1 e1r] [b2 b2r] [e2 e2r]]
                 [p1 wb1 c1 af1] [p2 wb2 c2 af2]].
  destruct a as [[|[|]] env|t'].
  - destruct p as [| |[[|]|[|]]|[|]| | | |[|]|[|]| |]; destruct mm, w;
      step_cases Hs; cbn; congruence.
  - destruct p1; destruct mm, w; step_cases Hs; cbn; congruence.
  - destruct p2; destruct mm, w; step_cases Hs; cbn; congruence.
  - destruct mm; [discriminate|].
    destruct HD as (_ & _ & _ & Fm & _ & _ & (F1 & _) & (F2 & _)).
    destruct t' as [|[|]], w; step_cases Hs; cbn in *.
    all: match goal with
         | H : Forall mentry (_ :: _) |- _ =>
             inversion H as [|? ? [[?|?] ?] ?]; clear H
         | H : Forall (wentry _) (_ :: _) |- _ =>
             inversion H as [|? ? [[? ?]|[? ?]] ?]; clear H
         end; cbn in *; subst; cbn; congruence.
Qed.

Lemma step_store_to mm s a s' e w :
  step mm a s = Some (s', e) -> is_store_to (res w) e = is_copy_by w e.
Proof.
  intros Hs.
  destruct s as [[p mb np d it out] [x y a1 a2]
                 [[b1 b1r] [e1 e1r] [b2 b2r] [e2 e2r]]
                 [p1 wb1 c1 af1] [p2 wb2 c2 af2]].
  destruct a as [[|[|]] env|t'].
  - destruct p as [| |[[|]|[|]]|[|]| | | |[|]|[|]| |]; destruct mm, w;
      step_cases Hs; reflexivity.
  - destruct p1; destruct mm, w; step_cases Hs; reflexivity.
  - destruct p2; destruct mm, w; step_cases Hs; reflexivity.
  - destruct mm; [discriminate|].
    destruct t' as [|[|]], w; step_cases Hs; reflexivity.
Qed.

Lemma exec_writers mm tr s w :
  exec mm init tr s ->
  Forall (fun e => forall t, writer (res w) e = Some t -> t = TWorker w) tr /\
  count (is_store_to (res w)) tr = count (is_copy_by w) tr.
Proof.
  induction 1 as [|tr s a s' e Hex [IHf IHc] Hs].
  - split; [constructor | reflexivity].
  - split.
    + apply Forall_app. split; [exact IHf|]. constructor; [|constructor].
      intros t. eapply step_writer; [|exact Hs]. eapply exec_data; exact Hex.
    + rewrite !count_snoc, IHc, (step_store_to _ _ _ _ _ w Hs). reflexivity.
Qed.

Lemma reset_frame mm env s s' e :
  mpc (coord s) = M_reset_X \/ mpc (coord s) = M_reset_Y ->
  step mm (Run TMain env) s = Some (s', e) ->
  (e = EvStore TMain vX 0 \/ e = EvStore TMain vY 0) /\
  r1 (mem s') = r1 (mem s) /\ r2 (mem s') = r2 (mem s) /\
  thread1 s' = thread1 s /\ thread2 s' = thread2 s /\
  (forall t, read s' t vR1 = read s t vR1 /\ read s' t vR2 = read s t vR2).
Proof.
  intros Hp Hs.
  destruct s as [[p mb np d it out] [x y a1 a2] ss t1 t2].
  cbn in Hp.
  destruct Hp; subst p; destruct mm; step_cases Hs; cbn; repeat split; auto;
    destruct t as [|[|]]; unfold read; cbn; rewrite ?buf_lookup_snoc; reflexivity.
Qed.

(** C9: the reset of lines 146-147 stores to [X] and [Y] only: it leaves
    [r1], [r2] and both workers untouched, in memory and as any thread would
    read them.  On every trace a result cell is stored to (and a buffered
    store to it retired) by its owning worker only, each such store is that
    worker's [r = other] copy, and there is one of them per trial: at the
    check, the N-th, the owner has copied N times and the cell holds the value
    of the latest copy. *)
Theorem result_cells_frame mm tr s w :
  exec mm init tr s ->
  (forall env s' e,
     mpc (coord s) = M_reset_X \/ mpc (coord s) = M_reset_Y ->
     step mm (Run TMain env) s = Some (s', e) ->
     (e = EvStore TMain vX 0 \/ e = EvStore TMain vY 0) /\
     r1 (mem s') = r1 (mem s) /\ r2 (mem s') = r2 (mem s) /\
     thread1 s' = thread1 s /\ thread2 s' = thread2 s /\
     (forall t, read s' t vR1 = read s t vR1 /\ read s' t vR2 = read s t vR2)) /\
  Forall (fun e => forall t, writer (res w) e = Some t -> t = TWorker w) tr /\
  count (is_store_to (res w)) tr = count (is_copy_by w) tr /\
  count is_incr tr <= count (is_copy_by w) tr <= count is_incr tr + 1 /\
  (mpc (coord s) = M_check ->
   count (is_copy_by w) tr = count is_check tr + 1 /\
   exists v, last_copy w tr = Some v /\ mem_get (mem s) (res w) = v).
Proof.
  intros Hex.
  destruct (exec_writers _ _ _ w Hex) as (Hf & Hc).
  pose proof (exec_sync _ _ _ Hex) as (HM & H1 & H2).
  pose proof (exec_data _ _ _ Hex) as (_ & _ & _ & _ & _ & _ & D1 & D2).
  assert (HW : wsync tr s w) by (destruct w; assumption).
  assert (HD : wdata mm tr s w) by (destruct w; assumption).
  clear H1 H2 D1 D2.
  destruct HD as (_ & Hb & Hl).
  unfold msync, wsync in *.
  pose proof (count_nonneg is_incr tr).
  pose proof (past_mono (widx (wpc (thread s w)))).
  pose proof (past_mono (midx (mpc (coord s)))).
  split; [intros env s' e; apply reset_frame|].
  split; [exact Hf|]. split; [exact Hc|].
  split; [destruct w; cbn in *; lia|].
  intros Hp. rewrite Hp in *.
  assert (C : count (is_copy_by w) tr = count is_check tr + 1)
    by (destruct w; unfold past in *; cbn in *; lia).
  split; [exact C|].
  destruct (last_copy_some w tr) as (v & E); [lia|].
  exists v. split; [exact E|].
  assert (Hi : widx (wpc (thread s w)) = 0).
  { destruct w; cbn in *;
      [destruct (wpc (thread1 s)) | destruct (wpc (thread2 s))];
      unfold past in *; cbn in *; lia. }
  specialize (Hl v E). unfold read in Hl. cbn in Hl.
  rewrite Hb in Hl by (left; lia). exact Hl.
Qed.

Lemma result_cells_frame_witness :
  exec TSO init tr_check st_check /\
  mpc (coord st_check) = M_check /\
  count (is_copy_by W1) tr_check = count is_check tr_check + 1 /\
  last_copy W1 tr_check = Some (mem_get (mem st_check) vR1).
Proof.
  assert (H1 : exec TSO init tr_check st_check)
    by (apply (run_exec TSO sched_tso_00_check); vm_compute; reflexivity).
  split; [exact H1|]. split; [reflexivity|].
  destruct (result_cells_frame TSO tr_check st_check W1 H1) as (_ & _ & _ & _ & H).
  destruct (H eq_refl) as (Hc & v & Hv & Hm).
  split; [exact Hc|]. rewrite Hv. f_equal. symmetry. exact Hm.
Defined.

(** ** Start-up (C7) *)

(** C7 fails on the code: worker 1's affinity call fails (event 12 of the
    trace), the thread is left unbound, and yet the trial loop is entered
    afterwards (event 17 is the first reset) and a whole trial is checked;
    nothing but the processor count is printed. *)
Lemma startup_failure_not_fatal :
  run SC sched_affinity_fails init = Some (st_affinity_fails, tr_affinity_fails) /\
  nth_error tr_affinity_fails 12 = Some (EvSetAffinity W1 22) /\
  affinity (thread1 st_affinity_fails) = None /\
  nth_error tr_affinity_fails 17 = Some (EvStore TMain vX 0) /\
  count is_check tr_affinity_fails = 1 /\
  iterations (coord st_affinity_fails) = 2 /\
  stdout (coord st_affinity_fails) = [ProcessorsLine 16].
Proof. vm_compute. repeat split; reflexivity. Qed.

Lemma wgoto_same s w : wgoto s w (wpc (thread s w)) = s.
Proof. destruct s as [c m ss [? ? ? ?] [? ? ? ?]], w; reflexivity. Qed.

Lemma coord_sem_init s k rc : coord (sem_init s k rc) = coord s.
Proof. unfold sem_init. destruct (rc =? 0); reflexivity. Qed.

Lemma coord_pthread_create s w rc : coord (pthread_create s w rc) = coord s.
Proof. unfold pthread_create. destruct (rc =? 0), w; reflexivity. Qed.

Lemma main_startup_step mm env s :
  in_loop (mpc (coord s)) = false ->
  exists s' e,
    step mm (Run TMain env) s = Some (s', e) /\
    coord s' = startup_coord env (coord s).
Proof.
  intros Hl. unfold step, main, startup_coord.
  destruct (mpc (coord s)); try discriminate; do 2 eexists;
    (split; [reflexivity|]); cbn;
    rewrite ?coord_sem_init, ?coord_pthread_create; reflexivity.
Qed.

Lemma worker_startup_step mm w env s :
  In (wpc (thread s w)) [W_srand; W_cpu_zero; W_cpu_set; W_setaffinity] ->
  exists e,
    step mm (Run (TWorker w) env) s =
    Some (set_thread s w (startup_thread w env (thread s w)), e).
Proof.
  intros Hp. unfold step, thread1Func, thread2Func, threadFunc, startup_thread, wgoto.
  destruct w; cbn in *;
    destruct Hp as [<-|[<-|[<-|[<-|[]]]]]; eexists; reflexivity.
Qed.

Lemma thread_set_thread s w t : thread (set_thread s w t) w = t.
Proof. destruct w; reflexivity. Qed.

Lemma main_startup_runs mm n i1 i2 i3 i4 c1 c2 : exists s tr,
     run mm (main_startup n i1 i2 i3 i4 c1 c2) init = Some (s, tr) /\
     mpc (coord s) = M_reset_X /\
     stdout (coord s) = [ProcessorsLine (to_int n)] /\
     detected (coord s) = 0 /\ iterations (coord s) = 1.
Proof.
  destruct (main_startup_step mm n init eq_refl) as (s1 & e1 & H1 & C1).
  destruct (main_startup_step mm 0 s1) as (s2 & e2 & H2 & C2);
    [rewrite C1; reflexivity|]. rewrite C1 in C2.
  destruct (main_startup_step mm i1 s2) as (s3 & e3 & H3 & C3);
    [rewrite C2; reflexivity|]. rewrite C2 in C3.
  destruct (main_startup_step mm i2 s3) as (s4 & e4 & H4 & C4);
    [rewrite C3; reflexivity|]. rewrite C3 in C4.
  destruct (main_startup_step mm i3 s4) as (s5 & e5 & H5 & C5);
    [rewrite C4; reflexivity|]. rewrite C4 in C5.
  destruct (main_startup_step mm i4 s5) as (s6 & e6 & H6 & C6);
    [rewrite C5; reflexivity|]. rewrite C5 in C6.
  destruct (main_startup_step mm c1 s6) as (s7 & e7 & H7 & C7);
    [rewrite C6; reflexivity|]. rewrite C6 in C7.
  destruct (main_startup_step mm c2 s7) as (s8 & e8 & H8 & C8);
    [rewrite C7; reflexivity|]. rewrite C7 in C8.
  destruct (main_startup_step mm 0 s8) as (s9 & e9 & H9 & C9);
    [rewrite C8; reflexivity|]. rewrite C8 in C9.
  exists s9, [e1; e2; e3; e4; e5; e6; e7; e8; e9].
  split.
  - unfold main_startup. cbn [run].
    rewrite H1, H2, H3, H4, H5, H6, H7, H8, H9. reflexivity.
  - rewrite C9. cbn. auto.
Qed.

Lemma worker_startup_runs mm s w t rc :
  wpc (thread s w) = W_srand -> exists s' tr,
       run mm (worker_startup w t rc) s = Some (s', tr) /\
       wpc (thread s' w) = W_wait /\
       affinity (thread s' w) =
         (if rc =? 0 then Some [cpu w] else affinity (thread s w)) /\
       coord s' = coord s /\ mem s' = mem s /\ sems s' = sems s.
Proof.
  intros Hp.
  destruct (worker_startup_step mm w t s) as (e1 & H1);
    [rewrite Hp; cbn; auto|].
  set (s1 := set_thread s w (startup_thread w t (thread s w))) in *.
  assert (T1 : thread s1 w = set_wpc (thread s w) W_cpu_zero).
  { unfold s1. rewrite thread_set_thread. unfold startup_thread. rewrite Hp. reflexivity. }
  destruct (worker_startup_step mm w 0 s1) as (e2 & H2);
    [rewrite T1; cbn; auto|].
  set (s2 := set_thread s1 w (startup_thread w 0 (thread s1 w))) in *.
  assert (T2 : thread s2 w =
               {| wpc := W_cpu_set; wbuf := wbuf (thread s w); cpus := [];
                  affinity := affinity (thread s w) |}).
  { unfold s2. rewrite thread_set_thread, T1. reflexivity. }
  destruct (worker_startup_step mm w 0 s2) as (e3 & H3);
    [rewrite T2; cbn; auto|].
  set (s3 := set_thread s2 w (startup_thread w 0 (thread s2 w))) in *.
  assert (T3 : thread s3 w =
               {| wpc := W_setaffinity; wbuf := wbuf (thread s w); cpus := [cpu w];
                  affinity := affinity (thread s w) |}).
  { unfold s3. rewrite thread_set_thread, T2. reflexivity. }
  destruct (worker_startup_step mm w rc s3) as (e4 & H4);
    [rewrite T3; cbn; auto|].
  set (s4 := set_thread s3 w (startup_thread w rc (thread s3 w))) in *.
  exists s4, [e1; e2; e3; e4]. split.
  - unfold worker_startup. cbn [run]. rewrite H1, H2, H3, H4. reflexivity.
  - unfold s4. rewrite thread_set_thread, T3. cbn.
    repeat split; destruct w; reflexivity.
Qed.

(** C7, as the code has it: the values returned by [sem_init],
    [pthread_create] and [pthread_setaffinity_np] are discarded.  Whatever
    they are, [main] runs its nine start-up statements and stands at the
    first reset of the trial loop having printed the processor count only;
    and a created worker runs its four start-up statements and stands at its
    first [sem_wait], bound to its CPU only if the call succeeded, with
    nothing printed. *)
Theorem startup_results_discarded mm :
  (forall n i1 i2 i3 i4 c1 c2, exists s tr,
     run mm (main_startup n i1 i2 i3 i4 c1 c2) init = Some (s, tr) /\
     mpc (coord s) = M_reset_X /\
     stdout (coord s) = [ProcessorsLine (to_int n)] /\
     detected (coord s) = 0 /\ iterations (coord s) = 1) /\
  (forall s w t rc,
     wpc (thread s w) = W_srand -> exists s' tr,
       run mm (worker_startup w t rc) s = Some (s', tr) /\
       wpc (thread s' w) = W_wait /\
       affinity (thread s' w) =
         (if rc =? 0 then Some [cpu w] else affinity (thread s w)) /\
       coord s' = coord s /\ mem s' = mem s /\ sems s' = sems s).
Proof.
  split.
  - intros. apply main_startup_runs.
  - intros s w t rc Hp. apply worker_startup_runs. exact Hp.
Qed.

Lemma startup_results_discarded_witness :
  wpc (thread (final SC startup_main) W1) = W_srand /\
  exists s' tr,
    run SC (worker_startup W1 0 22) (final SC startup_main) = Some (s', tr) /\
    wpc (thread s' W1) = W_wait /\ affinity (thread s' W1) = None.
Proof.
  assert (H : wpc (thread (final SC startup_main) W1) = W_srand) by reflexivity.
  split; [exact H|].
  destruct (proj2 (startup_results_discarded SC) (final SC startup_main) W1 0 22 H)
    as (s' & tr & Hr & Hp & Ha & _).
  exists s', tr. split; [exact Hr|]. split; [exact Hp|]. exact Ha.
Defined.

(** ** The delay loop (C8) *)

Lemma run_app mm l1 l2 s s1 tr1 :
  run mm l1 s = Some (s1, tr1) ->
  run mm (l1 ++ l2) s =
  match run mm l2 s1 with
  | Some (s2, tr2) => Some (s2, tr1 ++ tr2)
  | None => None
  end.
Proof.
  revert s s1 tr1. induction l1 as [|a l1 IH]; cbn; intros s s1 tr1 H.
  - injection H as <- <-. destruct (run mm l2 s) as [[? ?]|]; reflexivity.
  - destruct (step mm a s) as [[s' e]|]; [|discriminate].
    destruct (run mm l1 s') as [[s'' tr']|] eqn:E; [|discriminate].
    injection H as <- <-. rewrite (IH _ _ _ E).
    destruct (run mm l2 s'') as [[? ?]|]; reflexivity.
Qed.

Lemma delay_step mm w s v :
  wpc (thread s w) = W_delay ->
  step mm (Run (TWorker w) v) s =
  Some (wgoto s w (if Z.rem v 8 =? 0 then W_store else W_delay), EvRand w v).
Proof.
  intros Hp. destruct w; cbn in *; unfold thread1Func, thread2Func, threadFunc;
    cbn; rewrite Hp; destruct (Z.rem v 8 =? 0); reflexivity.
Qed.

Lemma delay_spin mm w s vs :
  wpc (thread s w) = W_delay -> Forall (fun v => Z.rem v 8 <> 0) vs ->
  run mm (map (Run (TWorker w)) vs) s = Some (s, map (EvRand w) vs).
Proof.
  intros Hp H. induction H as [|v vs Hv _ IH]; [reflexivity|].
  cbn [map run]. rewrite (delay_step mm w s v Hp).
  apply Z.eqb_neq in Hv. rewrite Hv, <- Hp, wgoto_same, IH. reflexivity.
Qed.

Lemma first_zero (rs : nat -> Z) n :
  (exists k, (k <= n)%nat /\ Z.rem (rs k) 8 = 0 /\
             forall i, (i < k)%nat -> Z.rem (rs i) 8 <> 0) \/
  (forall i, (i <= n)%nat -> Z.rem (rs i) 8 <> 0).
Proof.
  induction n as [|n [(k & Hk & Hz & Hl)|Hn]].
  - destruct (Z.eq_dec (Z.rem (rs O) 8) 0) as [E|E].
    + left. exists O. repeat split; auto. intros i Hi. lia.
    + right. intros i Hi. replace i with O by lia. exact E.
  - left. exists k. repeat split; auto.
  - destruct (Z.eq_dec (Z.rem (rs (S n)) 8) 0) as [E|E].
    + left. exists (S n). repeat split; auto. intros i Hi. apply Hn. lia.
    + right. intros i Hi. destruct (Nat.eq_dec i (S n)) as [->|]; auto.
      apply Hn. lia.
Qed.

(** C8: standing in the delay loop of line 83 / 109, a worker's step draws
    the next pseudo-random value and stays in the loop exactly while the
    value modulo 8 is nonzero; the step changes nothing but the worker's
    program point.  If the stream [rs] of values the worker draws holds a
    value divisible by 8, at index [n] say, then the loop is left after
    [k + 1 <= n + 1] draws, [k] the first such index, with memory, buffers,
    semaphores and [main] as they were. *)
Theorem delay_loop_terminates mm w s (rs : nat -> Z) n :
  wpc (thread s w) = W_delay -> Z.rem (rs n) 8 = 0 ->
  (forall v,
     step mm (Run (TWorker w) v) s =
     Some (wgoto s w (if Z.rem v 8 =? 0 then W_store else W_delay), EvRand w v)) /\
  exists k,
    (k <= n)%nat /\ Z.rem (rs k) 8 = 0 /\
    (forall i, (i < k)%nat -> Z.rem (rs i) 8 <> 0) /\
    (forall j, (j <= k)%nat ->
       run mm (map (fun i => Run (TWorker w) (rs i)) (seq 0 j)) s =
       Some (s, map (fun i => EvRand w (rs i)) (seq 0 j))) /\
    run mm (map (fun i => Run (TWorker w) (rs i)) (seq 0 (S k))) s =
    Some (wgoto s w W_store, map (fun i => EvRand w (rs i)) (seq 0 (S k))) /\
    mem (wgoto s w W_store) = mem s /\
    sems (wgoto s w W_store) = sems s /\
    coord (wgoto s w W_store) = coord s /\
    (forall t, buf_of (wgoto s w W_store) t = buf_of s t).
Proof.
  intros Hp Hn. split; [intros v; apply delay_step; exact Hp|].
  destruct (first_zero rs n) as [(k & Hk & Hz & Hl)|Hnz];
    [|exfalso; exact (Hnz n (le_n n) Hn)].
  exists k. split; [exact Hk|]. split; [exact Hz|]. split; [exact Hl|].
  assert (Hspin : forall j, (j <= k)%nat ->
            run mm (map (fun i => Run (TWorker w) (rs i)) (seq 0 j)) s =
            Some (s, map (fun i => EvRand w (rs i)) (seq 0 j))).
  { intros j Hj.
    rewrite <- (map_map rs (Run (TWorker w))), <- (map_map rs (EvRand w)).
    apply delay_spin; [exact Hp|].
    apply Forall_forall. intros v Hv. apply in_map_iff in Hv.
    destruct Hv as (i & <- & Hi). apply in_seq in Hi. apply Hl. lia. }
  split; [exact Hspin|].
  split.
  - rewrite seq_S, !map_app. cbn [map Nat.add].
    rewrite (run_app mm _ _ _ _ _ (Hspin k (le_n k))). cbn [run].
    rewrite (delay_step mm w s (rs k) Hp).
    apply Z.eqb_eq in Hz. rewrite Hz. reflexivity.
  - destruct s as [c m ss t1 t2], w; cbn; repeat split; auto;
      intros [|[|]]; reflexivity.
Qed.

Lemma delay_loop_terminates_witness :
  wpc (thread st_w1_delay W1) = W_delay /\
  Z.rem (sample_stream 5) 8 = 0 /\
  run TSO [Run (TWorker W1) 3; Run (TWorker W1) 13; Run (TWorker W1) 16] st_w1_delay =
  Some (wgoto st_w1_delay W1 W_store, [EvRand W1 3; EvRand W1 13; EvRand W1 16]).
Proof.
  assert (H1 : wpc (thread st_w1_delay W1) = W_delay) by reflexivity.
  assert (H2 : Z.rem (sample_stream 5) 8 = 0) by reflexivity.
  split; [exact H1|]. split; [exact H2|].
  destruct (delay_loop_terminates TSO W1 st_w1_delay sample_stream 5 H1 H2)
    as (_ & k & Hk & Hz & Hl & _ & Hr & _).
  destruct k as [|[|[|k]]].
  - discriminate Hz.
  - discriminate Hz.
  - exact Hr.
  - exfalso. apply (Hl 2%nat); [lia|reflexivity].
Defined.

(** ** Signals are never lost or doubled *)

(** X1: for each worker the pending start signal, the worker being inside
    its transaction, and the pending done signal are mutually exclusive, and
    exactly one of them holds while [main] is between posting that worker's
    start signal and taking its done signal; none holds otherwise.  So each
    semaphore only ever holds 0 or 1. *)
Theorem signal_conservation mm tr s w :
  exec mm init tr s ->
  sem_value (sem_get (sems s) (SBegin w)) + past (widx (wpc (thread s w))) 0 +
  sem_value (sem_get (sems s) (SEnd w)) = awaited (mpc (coord s)) w /\
  0 <= sem_value (sem_get (sems s) (SBegin w)) <= 1 /\
  0 <= sem_value (sem_get (sems s) (SEnd w)) <= 1 /\
  0 <= awaited (mpc (coord s)) w <= 1.
Proof.
  intros Hex.
  pose proof (exec_sync _ _ _ Hex) as (HM & H1 & H2).
  assert (HW : wsync tr s w) by (destruct w; assumption).
  clear H1 H2. unfold msync, wsync in *.
  pose proof (past_mono (midx (mpc (coord s)))).
  pose proof (past_mono (widx (wpc (thread s w)))).
  destruct w; unfold awaited; cbn in *; lia.
Qed.

Lemma signal_conservation_witness :
  exec TSO init tr_w1_delay st_w1_delay /\
  sem_value (sem_get (sems st_w1_delay) (SBegin W1)) = 0 /\
  sem_value (sem_get (sems st_w1_delay) (SEnd W1)) = 0 /\
  awaited (mpc (coord st_w1_delay)) W1 = 1.
Proof.
  assert (H1 : exec TSO init tr_w1_delay st_w1_delay)
    by (apply (run_exec TSO sched_w1_delay); vm_compute; reflexivity).
  split; [exact H1|].
  destruct (signal_conservation TSO tr_w1_delay st_w1_delay W1 H1)
    as (Hc & (Hb & _) & (He & _) & (_ & Ha)).
  unfold awaited in *. cbn in Hc, Hb, He, Ha |- *. repeat split; lia.
Defined.

(** ** A worker that was never created *)

Lemma not_started_before mm a s s' e w :
  step mm a s = Some (s', e) ->
  wpc (thread s' w) = W_not_started -> wpc (thread s w) = W_not_started.
Proof.
  intros Hs.
  destruct s as [[p mb np d it out] [x y a1 a2]
                 [[b1 b1r] [e1 e1r] [b2 b2r] [e2 e2r]]
                 [p1 wb1 c1 af1] [p2 wb2 c2 af2]].
  destruct a as [[|[|]] env|t].
  - destruct p as [| |[[|]|[|]]|[|]| | | |[|]|[|]| |]; destruct mm, w;
      step_cases Hs; cbn; auto; discriminate.
  - destruct p1; destruct mm, w; step_cases Hs; cbn; auto; discriminate.
  - destruct p2; destruct mm, w; step_cases Hs; cbn; auto; discriminate.
  - destruct mm; [discriminate|].
    destruct t as [|[|]], w; step_cases Hs; cbn; auto.
Qed.

Lemma create_once mm a s s' e w :
  step mm a s = Some (s', e) ->
  (before_create (mpc (coord s')) w = true -> before_create (mpc (coord s)) w = true) /\
  (before_create (mpc (coord s)) w = false ->
   wpc (thread s w) = W_not_started -> wpc (thread s' w) = W_not_started) /\
  (create_failed w e = true ->
   before_create (mpc (coord s)) w = true /\
   before_create (mpc (coord s')) w = false /\
   wpc (thread s' w) = wpc (thread s w)).
Proof.
  intros Hs.
  destruct s as [[p mb np d it out] [x y a1 a2]
                 [[b1 b1r] [e1 e1r] [b2 b2r] [e2 e2r]]
                 [p1 wb1 c1 af1] [p2 wb2 c2 af2]].
  destruct a as [[|[|]] env|t].
  - destruct p as [| |[[|]|[|]]|[|]| | | |[|]|[|]| |]; destruct mm, w;
      step_cases Hs; cbn; repeat split; auto; try discriminate.
    all: rewrite E in *; discriminate.
  - destruct p1; destruct mm, w; step_cases Hs; cbn; repeat split; auto;
      discriminate.
  - destruct p2; destruct mm, w; step_cases Hs; cbn; repeat split; auto;
      discriminate.
  - destruct mm; [discriminate|].
    destruct t as [|[|]], w; step_cases Hs; cbn; repeat split; auto; discriminate.
Qed.

Lemma exec_not_created mm tr s w :
  exec mm init tr s ->
  (wpc (thread s w) = W_not_started ->
   count (is_post (TWorker w) (SEnd w)) tr = 0) /\
  (existsb (create_failed w) tr = true ->
   wpc (thread s w) = W_not_started /\ before_create (mpc (coord s)) w = false).
Proof.
  induction 1 as [|tr s a s' e Hex [IHn IHf] Hs].
  - split; [reflexivity | discriminate].
  - pose proof (exec_data _ _ _ Hex) as (Hc1 & Hc2 & _).
    assert (Hc : before_create (mpc (coord s)) w = true ->
                 wpc (thread s w) = W_not_started) by (destruct w; assumption).
    destruct (create_once mm a s s' e w Hs) as (Hb & Hk & Hf).
    split.
    + intros Hp. pose proof (not_started_before _ _ _ _ _ w Hs Hp) as Hp0.
      rewrite count_snoc, (IHn Hp0).
      destruct (worker_view mm a s s' e w Hc Hs) as [[He Ht]|[He _]].
      * rewrite Hp0 in Ht. contradiction.
      * destruct e; try reflexivity. destruct t as [|w']; [reflexivity|].
        cbn in He |- *. rewrite He. reflexivity.
    + rewrite existsb_app. cbn. rewrite orb_false_r.
      intros H. apply orb_prop in H. destruct H as [H|H].
      * destruct (IHf H) as (Hp & Hbc). split; [auto|].
        destruct (before_create (mpc (coord s')) w) eqn:E; [|reflexivity].
        rewrite (Hb eq_refl) in Hbc. discriminate.
      * destruct (Hf H) as (Hb1 & Hb2 & Hsame).
        split; [rewrite Hsame; auto | exact Hb2].
Qed.

(** X2: if [pthread_create] fails for a worker, the failure is not noticed
    and [main] enters the loop, but no trial is ever checked: [main] never
    takes that worker's done signal, lines 156 and 162 never run, and once
    [main] stands at [sem_wait] on that worker's done semaphore it cannot
    step again. *)
Theorem create_failure_blocks_main mm tr s w :
  exec mm init tr s -> existsb (create_failed w) tr = true ->
  wpc (thread s w) = W_not_started /\
  count (is_wait TMain (SEnd w)) tr = 0 /\
  count is_check tr = 0 /\ count is_incr tr = 0 /\
  (mpc (coord s) = M_wait_end w ->
   forall env, step mm (Run TMain env) s = None).
Proof.
  intros Hex Hf.
  destruct (exec_not_created mm tr s w Hex) as (Hn & Hc).
  destruct (Hc Hf) as (Hp & _). specialize (Hn Hp).
  pose proof (exec_sync _ _ _ Hex) as (HM & H1 & H2).
  assert (HW : wsync tr s w) by (destruct w; assumption).
  clear H1 H2. unfold msync, wsync in *.
  pose proof (past_mono (midx (mpc (coord s)))).
  pose proof (count_nonneg is_incr tr).
  pose proof (count_nonneg (is_wait TMain (SEnd w)) tr).
  rewrite Hp in HW. cbn in HW.
  split; [exact Hp|].
  assert (Hw0 : count (is_wait TMain (SEnd w)) tr = 0) by lia.
  split; [exact Hw0|].
  split; [destruct w; cbn in *; lia|].
  split; [destruct w; cbn in *; lia|].
  intros Hm env.
  assert (Hv : sem_value (sem_get (sems s) (SEnd w)) = 0) by (cbn; lia).
  unfold step, main. rewrite Hm. unfold sem_wait. rewrite Hv.
  rewrite andb_false_r. reflexivity.
Qed.

Lemma create_failure_blocks_main_witness :
  exec SC init tr_create_fails st_create_fails /\
  existsb (create_failed W2) tr_create_fails = true /\
  mpc (coord st_create_fails) = M_wait_end W2 /\
  step SC (Run TMain 0) st_create_fails = None.
Proof.
  assert (H1 : exec SC init tr_create_fails st_create_fails)
    by (apply (run_exec SC sched_create_fails); vm_compute; reflexivity).
  assert (H2 : existsb (create_failed W2) tr_create_fails = true) by reflexivity.
  split; [exact H1|]. split; [exact H2|]. split; [reflexivity|].
  destruct (create_failure_blocks_main SC tr_create_fails st_create_fails W2 H1 H2)
    as (_ & _ & _ & _ & Hb).
  exact (Hb eq_refl 0).
Defined.

(** ** The protocol cannot deadlock *)

Lemma ready_step mm a s s' e :
  ready s -> step mm a s = Some (s', e) -> startup_ok e = true -> ready s'.
Proof.
  intros HR Hs.
  destruct s as [[p mb np d it out] [x y a1 a2]
                 [[b1 b1r] [e1 e1r] [b2 b2r] [e2 e2r]]
                 [p1 wb1 c1 af1] [p2 wb2 c2 af2]].
  unfold ready in *. cbn in HR.
  destruct a as [[|[|]] env|t].
  - destruct p as [| |[[|]|[|]]|[|]| | | |[|]|[|]| |]; destruct mm;
      step_cases Hs; cbn in *; intros Hok;
      try (rewrite Hok in *; discriminate);
      intuition (auto; discriminate).
  - destruct p1; destruct mm; step_cases Hs; cbn in *; intros _;
      intuition (auto; discriminate).
  - destruct p2; destruct mm; step_cases Hs; cbn in *; intros _;
      intuition (auto; discriminate).
  - destruct mm; [discriminate|].
    destruct t as [|[|]]; step_cases Hs; cbn in *; intros _; intuition auto.
Qed.

Lemma exec_ready mm tr s :
  exec mm init tr s -> forallb startup_ok tr = true -> ready s.
Proof.
  induction 1 as [|tr s a s' e Hex IH Hs].
  - intros _. unfold ready. cbn. intuition discriminate.
  - rewrite forallb_app. cbn. rewrite andb_true_r.
    intros H. apply andb_prop in H. destruct H as [Ht He].
    eapply ready_step; eauto.
Qed.

Ltac moves a :=
  exists a; unfold step, thread1Func, thread2Func, main, threadFunc, flush,
    check_reorder, sem_post, sem_wait, drained; cbn;
  repeat match goal with
    | H : ?x = true |- context [?x] => rewrite H; cbn
    end;
  eauto.

(** X3: as long as every [sem_init] and [pthread_create] succeeded and
    [iterations] has not reached [INT_MAX], some thread or the memory
    subsystem can always take a step: the start/done signalling never
    deadlocks, whatever the interleaving, the delay samples and the results
    of the affinity calls. *)
Theorem no_deadlock mm tr s :
  exec mm init tr s -> forallb startup_ok tr = true ->
  iterations (coord s) < INT_MAX ->
  exists a s' e, step mm a s = Some (s', e).
Proof.
  intros Hex Hok Hit.
  pose proof (exec_sync _ _ _ Hex) as (HM & H1 & H2).
  pose proof (exec_data _ _ _ Hex) as (_ & _ & _ & _ & Hmb & Hsc & (_ & Hb1 & _) & (_ & Hb2 & _)).
  pose proof (exec_ready _ _ _ Hex Hok) as (R1 & R2 & R3 & R4 & R5 & R6).
  destruct s as [[p mb np d it out] [x y a1 a2]
                 [[b1 b1r] [e1 e1r] [b2 b2r] [e2 e2r]]
                 [p1 wb1 c1 af1] [p2 wb2 c2 af2]].
  unfold msync, wsync in *. cbn in *.
  pose proof (count_nonneg is_incr tr).
  destruct p as [| |k|w| | | |[|]|[|]| |]; cbn in *.
  - moves (Run TMain 0).
  - moves (Run TMain 0).
  - moves (Run TMain 0).
  - moves (Run TMain 0).
  - moves (Run TMain 0).
  - moves (Run TMain 0).
  - moves (Run TMain 0).
  - (* sem_post(&beginSema1) *)
    destruct mb as [|[v z] mb].
    + rewrite (R1 eq_refl). moves (Run TMain 0).
    + destruct mm; [discriminate (Hsc eq_refl)|]. moves (Flush TMain).
  - destruct mb as [|[v z] mb].
    + rewrite (R3 eq_refl). moves (Run TMain 0).
    + destruct mm; [discriminate (Hsc eq_refl)|]. moves (Flush TMain).
  - (* sem_wait(&endSema1) *)
    destruct Hmb as [Hmb|[Hmb|Hmb]]; try discriminate. subst mb.
    rewrite (R2 eq_refl) in *. rewrite (R1 eq_refl) in *.
    destruct (Z.ltb_spec 0 e1) as [He|He].
    + exists (Run TMain 0). cbn. unfold main, sem_wait, drained. cbn.
      apply Z.ltb_lt in He. rewrite He. cbn. eauto.
    + specialize (R5 eq_refl).
      destruct p1; try congruence; unfold past in *; cbn in *;
        try solve [moves (Run (TWorker W1) 0)].
      * (* sem_wait(&beginSema): the start signal is pending *)
        assert (wb1 = []) as -> by (apply Hb1; left; lia).
        exists (Run (TWorker W1) 0). cbn.
        unfold thread1Func, thread2Func, threadFunc, sem_wait, drained. cbn.
        assert (Hb : (0 <? b1) = true) by (apply Z.ltb_lt; lia).
        rewrite Hb. cbn. eauto.
      * (* sem_post(&endSema): after the buffer has drained *)
        destruct wb1 as [|[v z] wb1].
        -- moves (Run (TWorker W1) 0).
        -- destruct mm; [discriminate (Hb1 (or_intror eq_refl))|].
           moves (Flush (TWorker W1)).
  - (* sem_wait(&endSema2) *)
    destruct Hmb as [Hmb|[Hmb|Hmb]]; try discriminate. subst mb.
    rewrite (R4 eq_refl) in *. rewrite (R3 eq_refl) in *.
    destruct (Z.ltb_spec 0 e2) as [He|He].
    + exists (Run TMain 0). cbn. unfold main, sem_wait, drained. cbn.
      apply Z.ltb_lt in He. rewrite He. cbn. eauto.
    + specialize (R6 eq_refl).
      destruct p2; try congruence; unfold past in *; cbn in *;
        try solve [moves (Run (TWorker W2) 0)].
      * (* sem_wait(&beginSema): the start signal is pending *)
        assert (wb2 = []) as -> by (apply Hb2; left; lia).
        exists (Run (TWorker W2) 0). cbn.
        unfold thread1Func, thread2Func, threadFunc, sem_wait, drained. cbn.
        assert (Hb : (0 <? b2) = true) by (apply Z.ltb_lt; lia).
        rewrite Hb. cbn. eauto.
      * (* sem_post(&endSema): after the buffer has drained *)
        destruct wb2 as [|[v z] wb2].
        -- moves (Run (TWorker W2) 0).
        -- destruct mm; [discriminate (Hb2 (or_intror eq_refl))|].
           moves (Flush (TWorker W2)).
  - (* the check *)
    exists (Run TMain 0). cbn. unfold main, check_reorder, read. cbn.
    destruct Hmb as [Hmb|[Hmb|Hmb]]; try discriminate. subst mb. cbn.
    destruct ((a1 =? 0) && (a2 =? 0)); [|eauto].
    assert (Hd : (d <? INT_MAX) = true)
      by (apply Z.ltb_lt; unfold past in *; cbn in *; lia).
    rewrite Hd. eauto.
  - (* iterations++ *)
    exists (Run TMain 0). cbn. unfold main. cbn.
    apply Z.ltb_lt in Hit. rewrite Hit. eauto.
Qed.

Lemma no_deadlock_witness :
  exec TSO init tr_w1_delay st_w1_delay /\
  forallb startup_ok tr_w1_delay = true /\
  iterations (coord st_w1_delay) < INT_MAX /\
  exists a s' e, step TSO a st_w1_delay = Some (s', e).
Proof.
  assert (H1 : exec TSO init tr_w1_delay st_w1_delay)
    by (apply (run_exec TSO sched_w1_delay); vm_compute; reflexivity).
  assert (H2 : forallb startup_ok tr_w1_delay = true) by reflexivity.
  assert (H3 : iterations (coord st_w1_delay) < INT_MAX) by reflexivity.
  split; [exact H1|]. split; [exact H2|]. split; [exact H3|].
  exact (no_deadlock TSO tr_w1_delay st_w1_delay H1 H2 H3).
Defined.

(** ** CPU binding *)

Lemma pinning_step mm tr s a s' e w :
  pinning tr s w -> step mm a s = Some (s', e) -> pinning (tr ++ [e]) s' w.
Proof.
  intros HP Hs. unfold pinning in *. rewrite existsb_app. cbn [existsb].
  rewrite orb_false_r.
  destruct s as [[p mb np d it out] [x y a1 a2]
                 [[b1 b1r] [e1 e1r] [b2 b2r] [e2 e2r]]
                 [p1 wb1 c1 af1] [p2 wb2 c2 af2]].
  destruct a as [[|[|]] env|t].
  - destruct p as [| |[[|]|[|]]|[|]| | | |[|]|[|]| |]; destruct mm, w;
      step_cases Hs; cbn in *; rewrite ?orb_false_r;
      intuition (auto; discriminate).
  - destruct p1; destruct mm, w; step_cases Hs; cbn in *;
      rewrite ?orb_false_r, ?orb_true_r;
      destruct HP as (Hz & Hc & Ha);
      try rewrite (Hz eq_refl); try rewrite (Hc eq_refl);
      repeat split; auto; try discriminate; try (rewrite E; cbn).
    all: rewrite ?orb_true_r, ?orb_false_r; auto.
  - destruct p2; destruct mm, w; step_cases Hs; cbn in *;
      rewrite ?orb_false_r, ?orb_true_r;
      destruct HP as (Hz & Hc & Ha);
      try rewrite (Hz eq_refl); try rewrite (Hc eq_refl);
      repeat split; auto; try discriminate; try (rewrite E; cbn).
    all: rewrite ?orb_true_r, ?orb_false_r; auto.
  - destruct mm; [discriminate|].
    destruct t as [|[|]], w; step_cases Hs; cbn in *; rewrite ?orb_false_r;
      intuition auto.
Qed.

(** X4: a worker is bound exactly when its [pthread_setaffinity_np] call has
    returned 0, and then to its own CPU alone, 10 for thread 1 and 1 for
    thread 2: [CPU_ZERO] empties the set before [CPU_SET] adds the CPU.  The
    binding never changes afterwards, so two bound workers never share a
    CPU. *)
Theorem worker_binding mm tr s w :
  exec mm init tr s ->
  affinity (thread s w) =
    (if existsb (is_bound w) tr then Some [cpu w] else None) /\
  (forall l1 l2 c,
     affinity (thread s W1) = Some l1 -> affinity (thread s W2) = Some l2 ->
     In c l1 -> ~ In c l2).
Proof.
  intros Hex.
  assert (H : forall w', pinning tr s w').
  { intros w'. induction Hex as [|tr s a s' e Hex IH Hs].
    - unfold pinning. destruct w'; cbn; repeat split; discriminate.
    - eapply pinning_step; eassumption. }
  split; [apply H|].
  intros l1 l2 c A1 A2.
  destruct (H W1) as (_ & _ & B1). destruct (H W2) as (_ & _ & B2).
  rewrite A1 in B1. rewrite A2 in B2.
  destruct (existsb (is_bound W1) tr); [|discriminate].
  destruct (existsb (is_bound W2) tr); [|discriminate].
  injection B1 as ->. injection B2 as ->. cbn.
  intros [<-|[]] [E|[]]. discriminate.
Qed.

Lemma worker_binding_witness :
  exec TSO init tr_check st_check /\
  affinity (thread st_check W1) = Some [10] /\
  affinity (thread st_check W2) = Some [1].
Proof.
  assert (H1 : exec TSO init tr_check st_check)
    by (apply (run_exec TSO sched_tso_00_check); vm_compute; reflexivity).
  split; [exact H1|]. split.
  - exact (proj1 (worker_binding TSO tr_check st_check W1 H1)).
  - exact (proj1 (worker_binding TSO tr_check st_check W2 H1)).
Defined.

(** ** The output *)

Lemma reports_facts rs d t :
  reports rs d t ->
  Z.of_nat (length rs) = d /\ 0 <= t /\
  (forall i l, nth_error rs i = Some l ->
     exists t', l = ReorderLine (Z.of_nat i + 1) t' /\ 0 < t' <= t) .
Proof.
  induction 1 as [|rs d t t' _ (IHl & IHt & IHn) Ht].
  - split; [reflexivity|]. split; [lia|]. intros [|i] l; discriminate.
  - split; [rewrite length_app; cbn; lia|]. split; [lia|].
    + intros i l Hi.
      destruct (Nat.lt_ge_cases i (length rs)) as [Hlt|Hge].
      * rewrite nth_error_app1 in Hi by exact Hlt.
        destruct (IHn i l Hi) as (u & -> & Hu). exists u. split; [reflexivity|lia].
      * rewrite nth_error_app2 in Hi by exact Hge.
        destruct (i - length rs)%nat as [|j] eqn:E; cbn in Hi.
        -- injection Hi as <-. exists t'. split; [|lia].
           f_equal. lia.
        -- destruct j; discriminate.
Qed.

Lemma reports_increasing rs d t :
  reports rs d t ->
  forall i j di ti dj tj,
    (i < j)%nat ->
    nth_error rs i = Some (ReorderLine di ti) ->
    nth_error rs j = Some (ReorderLine dj tj) ->
    ti < tj.
Proof.
  induction 1 as [|rs d t t' Hr IH Ht]; intros i j di ti dj tj Hij Hi Hj.
  - destruct i; discriminate.
  - assert (Hjl : (j < length (rs ++ [ReorderLine (d + 1) t']))%nat)
      by (apply nth_error_Some; rewrite Hj; discriminate).
    rewrite length_app in Hjl. cbn in Hjl.
    rewrite nth_error_app1 in Hi by lia.
    destruct (Nat.lt_ge_cases j (length rs)) as [Hlt|Hge].
    + rewrite nth_error_app1 in Hj by exact Hlt.
      exact (IH i j di ti dj tj Hij Hi Hj).
    + rewrite nth_error_app2 in Hj by exact Hge.
      replace (j - length rs)%nat with O in Hj by lia. cbn in Hj.
      injection Hj as _ <-.
      destruct (reports_facts _ _ _ Hr) as (_ & _ & Hn).
      destruct (Hn i _ Hi) as (u & Hu & Hb). injection Hu as _ ->. lia.
Qed.

Lemma printed_step mm a s s' e :
  printed s -> step mm a s = Some (s', e) -> printed s'.
Proof.
  intros HP Hs. unfold printed in *.
  destruct s as [[p mb np d it out] [x y a1 a2]
                 [[b1 b1r] [e1 e1r] [b2 b2r] [e2 e2r]]
                 [p1 wb1 c1 af1] [p2 wb2 c2 af2]].
  destruct a as [[|[|]] env|t].
  - destruct p as [| |[[|]|[|]]|[|]| | | |[|]|[|]| |]; destruct mm;
      step_cases Hs; bools; cbn in *; auto.
    all: try (subst out; reflexivity).
    all: try (subst out; exists [], 0;
              split; [reflexivity|]; split; [constructor|]; split; lia).
    all: destruct HP as (rs & t & Ho & Hr & Hle & Hlt); subst out.
    all: first [ exists rs, t; split; [reflexivity|];
                 split; [exact Hr|]; split; lia
               | exists (rs ++ [ReorderLine (d + 1) it]), it;
                 split; [reflexivity|];
                 split; [apply reports_snoc with (t := t); [exact Hr|lia]|]; split; lia ].
  - destruct p1; destruct mm; step_cases Hs; exact HP.
  - destruct p2; destruct mm; step_cases Hs; exact HP.
  - destruct mm; [discriminate|].
    destruct t as [|[|]]; step_cases Hs; exact HP.
Qed.

Lemma exec_printed mm tr s : exec mm init tr s -> printed s.
Proof.
  induction 1 as [|tr s a s' e _ IH Hs].
  - reflexivity.
  - eapply printed_step; eassumption.
Qed.

(** X5: inside the loop the output is the processor-count line followed by
    the report lines only; the i-th report line carries count i (so there are
    [detected] of them, numbered 1, 2, 3, ...), its trial index is positive
    and at most [iterations], and trial indices strictly increase from one
    report line to the next. *)
Theorem report_lines_numbered mm tr s :
  exec mm init tr s -> in_loop (mpc (coord s)) = true ->
  exists rs,
    stdout (coord s) = ProcessorsLine (numberOfProcessors (coord s)) :: rs /\
    Z.of_nat (length rs) = detected (coord s) /\
    (forall i l, nth_error rs i = Some l ->
       exists t, l = ReorderLine (Z.of_nat i + 1) t /\
                 0 < t <= iterations (coord s)) /\
    (forall i j di ti dj tj,
       (i < j)%nat ->
       nth_error rs i = Some (ReorderLine di ti) ->
       nth_error rs j = Some (ReorderLine dj tj) ->
       ti < tj).
Proof.
  intros Hex Hl. pose proof (exec_printed _ _ _ Hex) as HP.
  unfold printed in HP.
  assert (H : exists rs t,
             stdout (coord s) = ProcessorsLine (numberOfProcessors (coord s)) :: rs /\
             reports rs (detected (coord s)) t /\ t <= iterations (coord s)).
  { destruct (mpc (coord s)); try discriminate;
      destruct HP as (rs & t & H1 & H2 & H3 & _); eauto. }
  destruct H as (rs & t & Ho & Hr & Hle).
  destruct (reports_facts _ _ _ Hr) as (Hlen & _ & Hn).
  exists rs. split; [exact Ho|]. split; [exact Hlen|]. split.
  - intros i l Hi. destruct (Hn i l Hi) as (u & -> & Hu).
    exists u. split; [reflexivity|lia].
  - exact (reports_increasing _ _ _ Hr).
Qed.

Lemma report_lines_numbered_witness :
  exec TSO init tr_checked st_checked /\
  in_loop (mpc (coord st_checked)) = true /\
  exists rs,
    stdout (coord st_checked) = ProcessorsLine 16 :: rs /\
    Z.of_nat (length rs) = 1.
Proof.
  assert (H1 : exec TSO init tr_checked st_checked)
    by (apply (run_exec TSO (firstn 42 sched_tso_00)); vm_compute; reflexivity).
  assert (H2 : in_loop (mpc (coord st_checked)) = true) by reflexivity.
  split; [exact H1|]. split; [exact H2|].
  destruct (report_lines_numbered TSO tr_checked st_checked H1 H2)
    as (rs & Ho & Hlen & _).
  exists rs. split; [exact Ho | exact Hlen].
Defined.

(** ** Loads never see a previous trial *)

Lemma has_var_snoc x b y v :
  has_var x (b ++ [(y, v)]) = has_var x b || var_eqb x y.
Proof. unfold has_var. rewrite existsb_app. cbn. rewrite orb_false_r. reflexivity. Qed.


Lemma buf_lookup_absent (P : var * Z -> Prop) b x :
  Forall P b -> (forall v, ~ P (x, v)) -> buf_lookup b x = None.
Proof.
  intros H Hx. induction H as [|[y u] b Hu _ IH]; cbn; [reflexivity|].
  rewrite IH. destruct (var_eqb x y) eqn:E; [|reflexivity].
  destruct x, y; try discriminate; exfalso; exact (Hx _ Hu).
Qed.

Lemma fresh_init : fresh_cells [] init.
Proof. unfold fresh_cells. cbn. split; discriminate. Qed.

Ltac feed H :=
  lazymatch type of H with
  | ?A -> _ =>
      let a := fresh in
      assert (a : A) by (first [reflexivity | assumption | cbn in *; lia]);
      specialize (H a); clear a; feed H
  | _ => idtac
  end.

Ltac fresh_open :=
  unfold fresh_cells, has_var; cbn; rewrite ?count_snoc; cbn;
  split; intros Hl Hi Hv Hx; try discriminate; try (cbn in Hi; lia);
  rewrite ?existsb_app in Hv; cbn in Hv;
  rewrite ?orb_true_r, ?orb_false_r in Hv; try discriminate.

Ltac fresh_close FX FY :=
  try (feed FX); try (feed FY); cbn in *; unfold past in *; cbn in *; try lia.

Lemma fresh_step mm tr s a s' e :
  sync tr s -> data mm tr s -> fresh_cells tr s ->
  step mm a s = Some (s', e) -> fresh_cells (tr ++ [e]) s'.
Proof.
  intros (HM & H1 & H2) HD (FX & FY) Hs.
  destruct s as [[p mb np d it out] [x y a1 a2]
                 [[b1 b1r] [e1 e1r] [b2 b2r] [e2 e2r]]
                 [p1 wb1 c1 af1] [p2 wb2 c2 af2]].
  unfold msync, wsync, data, wdata in *. cbn in HM, H1, H2, FX, FY, HD.
  destruct HD as (_ & _ & _ & Fm & _ & Hsc & (F1 & B1 & _) & (F2 & B2 & _)).
  pose proof (count_nonneg is_incr tr).
  pose proof (past_mono (midx p)) as Pm.
  pose proof (past_mono (widx p1)) as P1.
  pose proof (past_mono (widx p2)) as P2.
  destruct a as [[|[|]] env|t].
  - destruct p as [| |[[|]|[|]]|[|]| | | |[|]|[|]| |]; destruct mm;
      step_cases Hs; bools; fresh_open; fresh_close FX FY.
  - destruct p1; destruct mm; step_cases Hs; bools; fresh_open; fresh_close FX FY.
  - destruct p2; destruct mm; step_cases Hs; bools; fresh_open; fresh_close FX FY.
  - destruct t as [|[|]]; destruct mm; step_cases Hs.
    + flush_entry; fresh_open; fresh_close FX FY.
    + destruct p1;
        try (assert (K : (v, z) :: wb1 = []) by (apply B1; left; cbn; lia);
             discriminate K);
        flush_entry; fresh_open; fresh_close FX FY.
    + destruct p2;
        try (assert (K : (v, z) :: wb2 = []) by (apply B2; left; cbn; lia);
             discriminate K);
        flush_entry; fresh_open; fresh_close FX FY.
Qed.

Lemma exec_fresh mm tr s : exec mm init tr s -> fresh_cells tr s.
Proof.
  induction 1 as [|tr s a s' e Hex IH Hs].
  - exact fresh_init.
  - eapply fresh_step; try eassumption.
    + eapply exec_sync; eassumption.
    + eapply exec_data; eassumption.
Qed.


Lemma load_step mm s w env s' t dst src v :
  step mm (Run (TWorker w) env) s = Some (s', EvCopy t dst src v) ->
  wpc (thread s w) = W_load /\ v = read s (TWorker w) (other w).
Proof.
  intros Hs. remember (EvCopy t dst src v) as e eqn:He.
  destruct s as [[p mb np d it out] [x y a1 a2]
                 [[b1 b1r] [e1 e1r] [b2 b2r] [e2 e2r]]
                 [p1 wb1 c1 af1] [p2 wb2 c2 af2]].
  destruct w; cbn.
  - destruct p1; destruct mm; step_cases Hs; try discriminate He;
      injection He as <- <- <- <-; split; reflexivity.
  - destruct p2; destruct mm; step_cases Hs; try discriminate He;
      injection He as <- <- <- <-; split; reflexivity.
Qed.

Lemma worker_buffer_miss w b :
  Forall (wentry w) b -> buf_lookup b (other w) = None.
Proof.
  intros F. apply (buf_lookup_absent (wentry w) b (other w) F).
  intros v [[E _]|[E _]]; destruct w; discriminate E.
Qed.

(** X6: a worker's load is served from memory and belongs to the trial in
    progress.  When worker [w] executes [r = other] (lines 88, 114) the value
    copied is the memory content of the other cell, 0 or 1; [w] itself has
    stored exactly once more than there are completed trials; a 1 was
    stored by the peer in this same trial, never left over from an earlier
    one; and under [SC] a 0 means the peer has not yet stored in this
    trial. *)
Theorem load_is_current mm tr s w env s' v :
  exec mm init tr s ->
  step mm (Run (TWorker w) env) s
    = Some (s', EvCopy (TWorker w) (res w) (other w) v) ->
  v = mem_get (mem s) (other w) /\ bit v /\
  count (is_store_by (TWorker w) (own w)) tr = count is_incr tr + 1 /\
  (v = 1 ->
   count (is_store_by (TWorker (peer w)) (other w)) tr = count is_incr tr + 1) /\
  (mm = SC -> v = 0 ->
   count (is_store_by (TWorker (peer w)) (other w)) tr = count is_incr tr).
Proof.
  intros Hex Hs.
  destruct (load_step _ _ _ _ _ _ _ _ _ Hs) as (Hpc & Hv).
  pose proof (exec_sync _ _ _ Hex) as (HM & H1 & H2).
  pose proof (exec_data _ _ _ Hex) as HD.
  pose proof (exec_fresh _ _ _ Hex) as (FX & FY).
  assert (HS : mm = SC -> scdata tr s) by (intros ->; exact (exec_scdata _ _ Hex)).
  clear Hex Hs.
  destruct s as [[p mb np d it out] [x y a1 a2]
                 [[b1 b1r] [e1 e1r] [b2 b2r] [e2 e2r]]
                 [p1 wb1 c1 af1] [p2 wb2 c2 af2]].
  unfold msync, wsync, data, wdata, mem_bits, scdata, read in *.
  cbn in HM, H1, H2, FX, FY, HD, HS.
  destruct HD as (_ & _ & (Bx & By & _) & _ & Hmb & _ & (F1 & _) & (F2 & _)).
  pose proof (count_nonneg is_incr tr).
  pose proof (past_mono (widx p1)) as P1.
  pose proof (past_mono (widx p2)) as P2.
  destruct w; cbn in Hpc, Hv |- *; subst.
  - pose proof (worker_buffer_miss W1 wb1 F1) as Hb. cbn in Hb. rewrite Hb.
    destruct p as [| |[[|]|[|]]|[|]| | | |[|]|[|]| |];
      unfold past in *; cbn in *; try lia;
      (assert (Hm : mb = []) by (destruct Hmb as [?|[?|?]]; [lia|lia|assumption]));
      subst mb;
      (split; [reflexivity|]); (split; [exact By|]); (split; [lia|]); split.
    all: try (intros Hy; apply FY; [reflexivity | lia | reflexivity | exact Hy]).
    all: intros E Hy; destruct (HS E) as (_ & SY & _);
      destruct (Z.eq_dec (count (is_store_by (TWorker W2) vY) tr)
                         (count is_incr tr)) as [K|K]; [exact K|];
      exfalso; assert (y = 1) by (apply SY; lia); lia.
  - pose proof (worker_buffer_miss W2 wb2 F2) as Hb. cbn in Hb. rewrite Hb.
    destruct p as [| |[[|]|[|]]|[|]| | | |[|]|[|]| |];
      unfold past in *; cbn in *; try lia;
      (assert (Hm : mb = []) by (destruct Hmb as [?|[?|?]]; [lia|lia|assumption]));
      subst mb;
      (split; [reflexivity|]); (split; [exact Bx|]); (split; [lia|]); split.
    all: try (intros Hy; apply FX; [reflexivity | lia | reflexivity | exact Hy]).
    all: intros E Hy; destruct (HS E) as (SX & _);
      destruct (Z.eq_dec (count (is_store_by (TWorker W1) vX) tr)
                         (count is_incr tr)) as [K|K]; [exact K|];
      exfalso; assert (x = 1) by (apply SX; lia); lia.
Qed.

Lemma load_is_current_witness :
  exec TSO init tr_loads st_loads /\
  exists s',
    step TSO (Run (TWorker W1) 0) st_loads
      = Some (s', EvCopy (TWorker W1) vR1 vY 1) /\
    count (is_store_by (TWorker W2) vY) tr_loads = count is_incr tr_loads + 1.
Proof.
  assert (H1 : exec TSO init tr_loads st_loads)
    by (apply (run_exec TSO sched_loads); vm_compute; reflexivity).
  split; [exact H1|].
  destruct (step TSO (Run (TWorker W1) 0) st_loads) as [[s' e]|] eqn:Hs;
    [|vm_compute in Hs; discriminate Hs].
  assert (He : e = EvCopy (TWorker W1) vR1 vY 1)
    by (vm_compute in Hs; injection Hs as _ <-; reflexivity).
  subst e. exists s'. split; [reflexivity|].
  exact (proj1 (proj2 (proj2 (proj2
           (load_is_current TSO tr_loads st_loads W1 0 s' 1 H1 Hs)))) eq_refl).
Defined.

(** ** What each loop statement does (C3, C4) *)











